(** * Showcase catalog engine: filtering, sorting, pagination, favorites,
      preview fallback and grab

    A shallow embedding of the client-side catalog code of the showcase page
    ([ShowcasePage], [FlowPreviewDialog] and the favorites queries) together
    with the properties its specification states about it. *)

From Stdlib Require Import ZArith QArith Qround Lia List Ascii String Sorted Permutation.
From stdpp Require Import base gmap sets strings.
Import ListNotations.

Local Open Scope Z_scope.
Local Open Scope string_scope.

(** ** Host primitives

    The page relies on three primitives of the JavaScript host whose result
    depends on the Unicode tables, the locale and the date parser of the
    engine. They are taken as an interface. *)

Class JsHost := {
  (** [String.prototype.toLowerCase] *)
  toLowerCase : string -> string;
  (** [a.localeCompare(b)]: negative, zero or positive *)
  localeCompare : string -> string -> Z;
  (** [new Date(s).getTime()]; [None] stands for NaN (an invalid date) *)
  getTime : string -> option Z
}.

(** A host for plain ASCII data: letters A-Z are lowered, strings are compared
    by code unit, and a date is a decimal number of milliseconds. *)

Definition lower_ascii (c : ascii) : ascii :=
  let n := nat_of_ascii c in
  if ((65 <=? n) && (n <=? 90))%nat then ascii_of_nat (n + 32) else c.

Fixpoint lower_string (s : string) : string :=
  match s with
  | EmptyString => EmptyString
  | String c s' => String (lower_ascii c) (lower_string s')
  end.

Definition compare_code_units (a b : string) : Z :=
  match String.compare a b with
  | Lt => -1
  | Eq => 0
  | Gt => 1
  end.

Definition digit_of (c : ascii) : option Z :=
  let n := nat_of_ascii c in
  if ((48 <=? n) && (n <=? 57))%nat then Some (Z.of_nat (n - 48)) else None.

Fixpoint millis_from (acc : Z) (s : string) : option Z :=
  match s with
  | EmptyString => Some acc
  | String c s' =>
      match digit_of c with
      | Some d => millis_from (10 * acc + d) s'
      | None => None
      end
  end.

Definition millis_of_string (s : string) : option Z :=
  match s with
  | EmptyString => None
  | _ => millis_from 0 s
  end.

Definition ascii_host : JsHost :=
  {| toLowerCase := lower_string;
     localeCompare := compare_code_units;
     getTime := millis_of_string |}.

(** ** JavaScript values and completions *)

(** JSON payloads and the objects built by the page. An object is the list of
    its own properties; a number is an integer here, which is all the page
    inspects of one (whether it is zero). *)
#[warnings="-register-all"]
Inductive JsValue :=
| JUndefined
| JNull
| JBool (b : bool)
| JNum (z : Z)
| JStr (s : string)
| JArr (elems : list JsValue)
| JObj (props : list (string * JsValue)).

Inductive JsError := TypeError | SyntaxError.

(** The result of running a piece of code: it returns, or it throws. *)
Inductive Completion (A : Type) :=
| Normal (a : A)
| Throw (e : JsError).

Arguments Normal {A} a.
Arguments Throw {A} e.

Definition bind {A B} (c : Completion A) (k : A -> Completion B) : Completion B :=
  match c with
  | Normal a => k a
  | Throw e => Throw e
  end.

Notation "x <-- c ;;; k" := (bind c (fun x => k))
  (at level 100, c at next level, right associativity).

(** Truthiness of a string: the empty string is falsy. *)
Definition truthy_string (s : string) : bool :=
  match s with EmptyString => false | _ => true end.

(** [ToBoolean] *)
Definition truthy (v : JsValue) : bool :=
  match v with
  | JUndefined | JNull => false
  | JBool b => b
  | JNum z => negb (Z.eqb z 0)
  | JStr s => truthy_string s
  | JArr _ | JObj _ => true
  end.

Fixpoint own_property (k : string) (props : list (string * JsValue)) : JsValue :=
  match props with
  | [] => JUndefined
  | (k', v) :: rest => if String.eqb k k' then v else own_property k rest
  end.

(** [v.k] for one of the property names the page reads ([data], [nodes],
    [edges], [viewport]): reading from [null] or [undefined] throws, a
    primitive or an array has no such property. *)
Definition get_property (v : JsValue) (k : string) : Completion JsValue :=
  match v with
  | JUndefined | JNull => Throw TypeError
  | JObj props => Normal (own_property k props)
  | _ => Normal JUndefined
  end.

(** [s.includes(sub)] *)
Fixpoint includes (s sub : string) : bool :=
  if String.prefix sub s then true
  else match s with
       | EmptyString => false
       | String _ s' => includes s' sub
       end.

(** [arr.filter(p)] for a callback that may throw: the callback runs on the
    elements in index order and the first throw aborts the call. *)
Fixpoint array_filter {A} (p : A -> Completion bool) (l : list A) : Completion (list A) :=
  match l with
  | [] => Normal []
  | x :: l' =>
      b <-- p x ;;;
      rest <-- array_filter p l' ;;;
      Normal (if b then x :: rest else rest)
  end.

(** [arr.sort(cmp)]: the sort is stable, and on a comparator that orders the
    elements consistently its result is the one stable arrangement in
    comparator order. Insertion from the right computes that arrangement:
    an element is placed before the first later element it does not exceed.
    A comparator result of NaN counts as 0, so [cmp] is integer valued. *)
Fixpoint insert_sorted {A} (cmp : A -> A -> Z) (x : A) (l : list A) : list A :=
  match l with
  | [] => [x]
  | y :: l' => if Z.leb (cmp x y) 0 then x :: l else y :: insert_sorted cmp x l'
  end.

Definition array_sort {A} (cmp : A -> A -> Z) (l : list A) : list A :=
  fold_right (insert_sorted cmp) [] l.

(** ** Data model (interface [StoreItem] and [StoreData])

    The TypeScript interface declares [author] and [tags] as present, but the
    snapshot is untyped JSON and the page guards against their absence, so
    they are optional here. *)

Inductive ItemType := FLOW | COMPONENT.

Record Author := {
  username : option string;
  full_name : option string
}.

Record Stats := {
  downloads : Z;
  likes : Z
}.

Record Dates := {
  created : string;
  updated : string
}.

Record TagsId := {
  tag_name : option string;
  tag_id : option string
}.

Record Tag := {
  tags_id : option TagsId
}.

Record Technical := {
  last_tested_version : option string;
  private : option bool
}.

Record StoreItem := {
  id : string;
  name : string;
  description : string;
  type : ItemType;
  author : option Author;
  stats : Stats;
  dates : Dates;
  tags : option (list (option Tag));
  technical : option Technical
}.

Record Summary := {
  total_items : Z;
  total_flows : Z;
  total_components : Z
}.

Record StoreData := {
  flows : list StoreItem;
  components : list StoreItem;
  summary : Summary
}.

(** ** Page state (the [useState] hooks of [ShowcasePage], the favorites
    query data and the alert store) *)

Inductive Alert :=
| SuccessData (title : string)
| ErrorData (title : string) (list : list string).

Record ShowcaseState := {
  storeData : option StoreData;
  searchTerm : string;
  sortBy : string;
  activeTab : string;
  selectedTags : list string;
  authorFilter : string;
  showPrivateOnly : bool;
  currentPage : Z;
  itemsPerPage : Z;
  grabbingItems : gset string;
  typeFilter : string;
  showFavoritesOnly : bool;
  (** data of the query [["favorites", "item-ids"]] *)
  favoriteItemIds : list string;
  (** the query has been invalidated and awaits its refetch *)
  favoritesStale : bool;
  myCollectionId : option string;
  (** what has been handed to [setSuccessData] and [setErrorData], oldest first *)
  alerts : list Alert
}.

Definition initialState : ShowcaseState :=
  {| storeData := None; searchTerm := ""; sortBy := "popular"; activeTab := "all";
     selectedTags := []; authorFilter := ""; showPrivateOnly := false;
     currentPage := 1; itemsPerPage := 24; grabbingItems := ∅;
     typeFilter := "all"; showFavoritesOnly := false;
     favoriteItemIds := []; favoritesStale := false;
     myCollectionId := None; alerts := [] |}.

Definition setStoreData (v : option StoreData) (st : ShowcaseState) : ShowcaseState :=
  {| storeData := v; searchTerm := searchTerm st; sortBy := sortBy st;
     activeTab := activeTab st; selectedTags := selectedTags st;
     authorFilter := authorFilter st; showPrivateOnly := showPrivateOnly st;
     currentPage := currentPage st; itemsPerPage := itemsPerPage st;
     grabbingItems := grabbingItems st; typeFilter := typeFilter st;
     showFavoritesOnly := showFavoritesOnly st;
     favoriteItemIds := favoriteItemIds st; favoritesStale := favoritesStale st;
     myCollectionId := myCollectionId st; alerts := alerts st |}.

Definition setSearchTerm (v : string) (st : ShowcaseState) : ShowcaseState :=
  {| storeData := storeData st; searchTerm := v; sortBy := sortBy st;
     activeTab := activeTab st; selectedTags := selectedTags st;
     authorFilter := authorFilter st; showPrivateOnly := showPrivateOnly st;
     currentPage := currentPage st; itemsPerPage := itemsPerPage st;
     grabbingItems := grabbingItems st; typeFilter := typeFilter st;
     showFavoritesOnly := showFavoritesOnly st;
     favoriteItemIds := favoriteItemIds st; favoritesStale := favoritesStale st;
     myCollectionId := myCollectionId st; alerts := alerts st |}.

Definition setSortBy (v : string) (st : ShowcaseState) : ShowcaseState :=
  {| storeData := storeData st; searchTerm := searchTerm st; sortBy := v;
     activeTab := activeTab st; selectedTags := selectedTags st;
     authorFilter := authorFilter st; showPrivateOnly := showPrivateOnly st;
     currentPage := currentPage st; itemsPerPage := itemsPerPage st;
     grabbingItems := grabbingItems st; typeFilter := typeFilter st;
     showFavoritesOnly := showFavoritesOnly st;
     favoriteItemIds := favoriteItemIds st; favoritesStale := favoritesStale st;
     myCollectionId := myCollectionId st; alerts := alerts st |}.

Definition setActiveTab (v : string) (st : ShowcaseState) : ShowcaseState :=
  {| storeData := storeData st; searchTerm := searchTerm st; sortBy := sortBy st;
     activeTab := v; selectedTags := selectedTags st;
     authorFilter := authorFilter st; showPrivateOnly := showPrivateOnly st;
     currentPage := currentPage st; itemsPerPage := itemsPerPage st;
     grabbingItems := grabbingItems st; typeFilter := typeFilter st;
     showFavoritesOnly := showFavoritesOnly st;
     favoriteItemIds := favoriteItemIds st; favoritesStale := favoritesStale st;
     myCollectionId := myCollectionId st; alerts := alerts st |}.

Definition setSelectedTags (v : list string) (st : ShowcaseState) : ShowcaseState :=
  {| storeData := storeData st; searchTerm := searchTerm st; sortBy := sortBy st;
     activeTab := activeTab st; selectedTags := v;
     authorFilter := authorFilter st; showPrivateOnly := showPrivateOnly st;
     currentPage := currentPage st; itemsPerPage := itemsPerPage st;
     grabbingItems := grabbingItems st; typeFilter := typeFilter st;
     showFavoritesOnly := showFavoritesOnly st;
     favoriteItemIds := favoriteItemIds st; favoritesStale := favoritesStale st;
     myCollectionId := myCollectionId st; alerts := alerts st |}.

Definition setAuthorFilter (v : string) (st : ShowcaseState) : ShowcaseState :=
  {| storeData := storeData st; searchTerm := searchTerm st; sortBy := sortBy st;
     activeTab := activeTab st; selectedTags := selectedTags st;
     authorFilter := v; showPrivateOnly := showPrivateOnly st;
     currentPage := currentPage st; itemsPerPage := itemsPerPage st;
     grabbingItems := grabbingItems st; typeFilter := typeFilter st;
     showFavoritesOnly := showFavoritesOnly st;
     favoriteItemIds := favoriteItemIds st; favoritesStale := favoritesStale st;
     myCollectionId := myCollectionId st; alerts := alerts st |}.

Definition setShowPrivateOnly (v : bool) (st : ShowcaseState) : ShowcaseState :=
  {| storeData := storeData st; searchTerm := searchTerm st; sortBy := sortBy st;
     activeTab := activeTab st; selectedTags := selectedTags st;
     authorFilter := authorFilter st; showPrivateOnly := v;
     currentPage := currentPage st; itemsPerPage := itemsPerPage st;
     grabbingItems := grabbingItems st; typeFilter := typeFilter st;
     showFavoritesOnly := showFavoritesOnly st;
     favoriteItemIds := favoriteItemIds st; favoritesStale := favoritesStale st;
     myCollectionId := myCollectionId st; alerts := alerts st |}.

Definition setCurrentPage (v : Z) (st : ShowcaseState) : ShowcaseState :=
  {| storeData := storeData st; searchTerm := searchTerm st; sortBy := sortBy st;
     activeTab := activeTab st; selectedTags := selectedTags st;
     authorFilter := authorFilter st; showPrivateOnly := showPrivateOnly st;
     currentPage := v; itemsPerPage := itemsPerPage st;
     grabbingItems := grabbingItems st; typeFilter := typeFilter st;
     showFavoritesOnly := showFavoritesOnly st;
     favoriteItemIds := favoriteItemIds st; favoritesStale := favoritesStale st;
     myCollectionId := myCollectionId st; alerts := alerts st |}.

Definition setGrabbingItems (v : gset string) (st : ShowcaseState) : ShowcaseState :=
  {| storeData := storeData st; searchTerm := searchTerm st; sortBy := sortBy st;
     activeTab := activeTab st; selectedTags := selectedTags st;
     authorFilter := authorFilter st; showPrivateOnly := showPrivateOnly st;
     currentPage := currentPage st; itemsPerPage := itemsPerPage st;
     grabbingItems := v; typeFilter := typeFilter st;
     showFavoritesOnly := showFavoritesOnly st;
     favoriteItemIds := favoriteItemIds st; favoritesStale := favoritesStale st;
     myCollectionId := myCollectionId st; alerts := alerts st |}.

Definition setTypeFilter (v : string) (st : ShowcaseState) : ShowcaseState :=
  {| storeData := storeData st; searchTerm := searchTerm st; sortBy := sortBy st;
     activeTab := activeTab st; selectedTags := selectedTags st;
     authorFilter := authorFilter st; showPrivateOnly := showPrivateOnly st;
     currentPage := currentPage st; itemsPerPage := itemsPerPage st;
     grabbingItems := grabbingItems st; typeFilter := v;
     showFavoritesOnly := showFavoritesOnly st;
     favoriteItemIds := favoriteItemIds st; favoritesStale := favoritesStale st;
     myCollectionId := myCollectionId st; alerts := alerts st |}.

Definition setShowFavoritesOnly (v : bool) (st : ShowcaseState) : ShowcaseState :=
  {| storeData := storeData st; searchTerm := searchTerm st; sortBy := sortBy st;
     activeTab := activeTab st; selectedTags := selectedTags st;
     authorFilter := authorFilter st; showPrivateOnly := showPrivateOnly st;
     currentPage := currentPage st; itemsPerPage := itemsPerPage st;
     grabbingItems := grabbingItems st; typeFilter := typeFilter st;
     showFavoritesOnly := v;
     favoriteItemIds := favoriteItemIds st; favoritesStale := favoritesStale st;
     myCollectionId := myCollectionId st; alerts := alerts st |}.

(** The favorites query cache: its data and whether it is stale. *)
Definition setFavoritesQuery (ids : list string) (stale : bool) (st : ShowcaseState)
  : ShowcaseState :=
  {| storeData := storeData st; searchTerm := searchTerm st; sortBy := sortBy st;
     activeTab := activeTab st; selectedTags := selectedTags st;
     authorFilter := authorFilter st; showPrivateOnly := showPrivateOnly st;
     currentPage := currentPage st; itemsPerPage := itemsPerPage st;
     grabbingItems := grabbingItems st; typeFilter := typeFilter st;
     showFavoritesOnly := showFavoritesOnly st;
     favoriteItemIds := ids; favoritesStale := stale;
     myCollectionId := myCollectionId st; alerts := alerts st |}.

(** [setSuccessData] and [setErrorData] of the alert store. *)
Definition raiseAlert (a : Alert) (st : ShowcaseState) : ShowcaseState :=
  {| storeData := storeData st; searchTerm := searchTerm st; sortBy := sortBy st;
     activeTab := activeTab st; selectedTags := selectedTags st;
     authorFilter := authorFilter st; showPrivateOnly := showPrivateOnly st;
     currentPage := currentPage st; itemsPerPage := itemsPerPage st;
     grabbingItems := grabbingItems st; typeFilter := typeFilter st;
     showFavoritesOnly := showFavoritesOnly st;
     favoriteItemIds := favoriteItemIds st; favoritesStale := favoritesStale st;
     myCollectionId := myCollectionId st; alerts := alerts st ++ [a] |}.

(** [const favorites = new Set(favoriteItemIds)] *)
Definition favorites (st : ShowcaseState) : gset string :=
  list_to_set (favoriteItemIds st).

(** [s.has(x)] *)
Definition has (s : gset string) (x : string) : bool := bool_decide (x ∈ s).

(** ** FilterEngine: [getFilteredItems] *)

Section FilterEngine.
Context {host : JsHost}.

(** [tag?.tags_id?.name] *)
Definition tag_entry_name (tag : option Tag) : option string :=
  match tag with
  | Some t =>
      match tags_id t with
      | Some tid => tag_name tid
      | None => None
      end
  | None => None
  end.

(** [item.author?.username] *)
Definition author_username (item : StoreItem) : option string :=
  match author item with
  | Some a => username a
  | None => None
  end.

(** [x && x.toLowerCase().includes(searchLower)] for an optional string [x] *)
Definition present_and_includes (x : option string) (searchLower : string) : bool :=
  match x with
  | Some s => truthy_string s && includes (toLowerCase s) searchLower
  | None => false
  end.

(** The callback of the search filter. *)
Definition matchesSearch (searchLower : string) (item : StoreItem) : bool :=
  includes (toLowerCase (name item)) searchLower
  || includes (toLowerCase (description item)) searchLower
  || present_and_includes (author_username item) searchLower
  || match tags item with
     | Some ts =>
         existsb (fun tag => present_and_includes (tag_entry_name tag) searchLower) ts
     | None => false
     end
  || present_and_includes
       (match technical item with
        | Some t => last_tested_version t
        | None => None
        end) searchLower.

(** [selectedTags.includes(x)] *)
Definition array_includes (arr : list string) (x : string) : bool :=
  existsb (String.eqb x) arr.

(** The callback of the tag filter. *)
Definition matchesTags (selected : list string) (item : StoreItem) : bool :=
  match tags item with
  | Some ts =>
      existsb (fun tag =>
                 match tag_entry_name tag with
                 | Some n => truthy_string n && array_includes selected n
                 | None => false
                 end) ts
  | None => false
  end.

(** The callback of the author filter:
    [item.author.username.toLowerCase().includes(authorFilter.toLowerCase())].
    There is no guard: reading [username] of a missing author, or calling
    [toLowerCase] on a missing username, throws. *)
Definition matchesAuthor (filter : string) (item : StoreItem) : Completion bool :=
  match author item with
  | None => Throw TypeError
  | Some a =>
      match username a with
      | None => Throw TypeError
      | Some u => Normal (includes (toLowerCase u) (toLowerCase filter))
      end
  end.

(** [item.technical?.private === true] *)
Definition isPrivate (item : StoreItem) : bool :=
  match technical item with
  | Some t =>
      match private t with
      | Some true => true
      | _ => false
      end
  | None => false
  end.

(** The five comparators handed to [items.sort]. *)
Definition cmp_popular (a b : StoreItem) : Z :=
  (likes (stats b) + downloads (stats b)) - (likes (stats a) + downloads (stats a)).

Definition cmp_recent (a b : StoreItem) : Z :=
  match getTime (updated (dates b)), getTime (updated (dates a)) with
  | Some tb, Some ta => tb - ta
  | _, _ => 0
  end.

Definition cmp_alphabetical (a b : StoreItem) : Z :=
  localeCompare (name a) (name b).

Definition cmp_downloads (a b : StoreItem) : Z :=
  downloads (stats b) - downloads (stats a).

Definition cmp_likes (a b : StoreItem) : Z :=
  likes (stats b) - likes (stats a).

(** The comparator selected by [sortBy], if any. *)
Definition comparator (sort : string) : option (StoreItem -> StoreItem -> Z) :=
  if String.eqb sort "popular" then Some cmp_popular
  else if String.eqb sort "recent" then Some cmp_recent
  else if String.eqb sort "alphabetical" then Some cmp_alphabetical
  else if String.eqb sort "downloads" then Some cmp_downloads
  else if String.eqb sort "likes" then Some cmp_likes
  else None.

(** What the local variable [items] refers to: one of the two arrays held by
    [storeData] (the "flows" and "components" tabs assign the array itself),
    or an array of its own made by a spread or by [filter]. *)
Inductive ItemsRef :=
| FlowsArray
| ComponentsArray
| OwnArray (l : list StoreItem).

Definition deref (sd : StoreData) (r : ItemsRef) : list StoreItem :=
  match r with
  | FlowsArray => flows sd
  | ComponentsArray => components sd
  | OwnArray l => l
  end.

(** [items.sort(cmp)] sorts the array [items] refers to, in place. *)
Definition sort_in_place (cmp : StoreItem -> StoreItem -> Z) (sd : StoreData)
    (r : ItemsRef) : StoreData * ItemsRef :=
  match r with
  | FlowsArray =>
      ({| flows := array_sort cmp (flows sd); components := components sd;
          summary := summary sd |}, FlowsArray)
  | ComponentsArray =>
      ({| flows := flows sd; components := array_sort cmp (components sd);
          summary := summary sd |}, ComponentsArray)
  | OwnArray l => (sd, OwnArray (array_sort cmp l))
  end.

(** Tab selection (first block of [getFilteredItems]). *)
Definition selectTab (st : ShowcaseState) (sd : StoreData) : ItemsRef :=
  if String.eqb (activeTab st) "all" then OwnArray (flows sd ++ components sd)
  else if String.eqb (activeTab st) "flows" then FlowsArray
  else if String.eqb (activeTab st) "components" then ComponentsArray
  else if String.eqb (activeTab st) "favorites" then
    OwnArray (List.filter (fun item => has (favorites st) (id item))
                          (flows sd ++ components sd))
  else OwnArray [].

(** The four filter blocks, in source order. Each one that runs replaces
    [items] by a new array. *)
Definition applyFilters (st : ShowcaseState) (sd : StoreData) (items : ItemsRef)
  : Completion ItemsRef :=
  let items :=
    if truthy_string (searchTerm st) then
      let searchLower := toLowerCase (searchTerm st) in
      OwnArray (List.filter (matchesSearch searchLower) (deref sd items))
    else items in
  let items :=
    if (0 <? Z.of_nat (length (selectedTags st)))%Z then
      OwnArray (List.filter (matchesTags (selectedTags st)) (deref sd items))
    else items in
  items <-- (if truthy_string (authorFilter st) then
               l <-- array_filter (matchesAuthor (authorFilter st)) (deref sd items) ;;;
               Normal (OwnArray l)
             else Normal items) ;;;
  Normal (if showPrivateOnly st then OwnArray (List.filter isPrivate (deref sd items))
          else items).

(** [getFilteredItems]: the returned array and [storeData] as the call
    leaves it. *)
Definition getFilteredItems (st : ShowcaseState)
  : Completion (list StoreItem * option StoreData) :=
  match storeData st with
  | None => Normal ([], None)
  | Some sd =>
      items <-- applyFilters st sd (selectTab st sd) ;;;
      let '(sd', items') :=
        match comparator (sortBy st) with
        | Some cmp => sort_in_place cmp sd items
        | None => (sd, items)
        end in
      Normal (deref sd' items', Some sd')
  end.

(** The array [items.sort] is called on, after the call. *)
Definition sortList (sort : string) (l : list StoreItem) : list StoreItem :=
  match comparator sort with
  | Some cmp => array_sort cmp l
  | None => l
  end.

(** An item gets through the four filter blocks. *)
Definition passesFilters (st : ShowcaseState) (item : StoreItem) : Prop :=
  (truthy_string (searchTerm st) = true ->
   matchesSearch (toLowerCase (searchTerm st)) item = true)
  /\ (selectedTags st <> [] -> matchesTags (selectedTags st) item = true)
  /\ (truthy_string (authorFilter st) = true ->
      matchesAuthor (authorFilter st) item = Normal true)
  /\ (showPrivateOnly st = true -> isPrivate item = true).

(** An item carries a well-formed tag whose name is selected. *)
Definition hasSelectedTag (selected : list string) (item : StoreItem) : Prop :=
  exists ts t tid n,
    tags item = Some ts /\ In (Some t) ts /\ tags_id t = Some tid
    /\ tag_name tid = Some n /\ In n selected.

End FilterEngine.

(** ** Paginator *)

(** [Math.ceil(filteredItems.length / itemsPerPage)], over the rationals.
    (For [itemsPerPage = 0] JavaScript yields NaN or Infinity, which this does
    not model; the page fixes [itemsPerPage] at 24.) *)
Definition totalPages {A} (filteredItems : list A) (itemsPerPage : Z) : Z :=
  Qceiling (inject_Z (Z.of_nat (length filteredItems)) / inject_Z itemsPerPage).

(** A relative index of [slice]: negative counts from the end, and the result
    is clamped to the array. *)
Definition relative_index (len k : Z) : Z :=
  if (k <? 0)%Z then Z.max (len + k) 0 else Z.min k len.

(** [arr.slice(from, to)] *)
Definition array_slice {A} (l : list A) (from to : Z) : list A :=
  let len := Z.of_nat (length l) in
  let k := relative_index len from in
  let final := relative_index len to in
  firstn (Z.to_nat (final - k)) (skipn (Z.to_nat k) l).

Definition paginatedItems {A} (filteredItems : list A) (page perPage : Z) : list A :=
  array_slice filteredItems ((page - 1) * perPage) (page * perPage).

(** ** Criteria changes and the page-reset effect *)

(** The state setters the controls of the page call. *)
Inductive Action :=
| SetSearchTerm (v : string)
| SetSelectedTags (v : list string)
| SetAuthorFilter (v : string)
| SetShowPrivateOnly (v : bool)
| SetActiveTab (v : string)
| SetSortBy (v : string)
| SetTypeFilter (v : string)
| SetShowFavoritesOnly (v : bool)
| SetCurrentPage (v : Z).

Definition applySetter (a : Action) (st : ShowcaseState) : ShowcaseState :=
  match a with
  | SetSearchTerm v => setSearchTerm v st
  | SetSelectedTags v => setSelectedTags v st
  | SetAuthorFilter v => setAuthorFilter v st
  | SetShowPrivateOnly v => setShowPrivateOnly v st
  | SetActiveTab v => setActiveTab v st
  | SetSortBy v => setSortBy v st
  | SetTypeFilter v => setTypeFilter v st
  | SetShowFavoritesOnly v => setShowFavoritesOnly v st
  | SetCurrentPage v => setCurrentPage v st
  end.

(** Whether one of the dependencies
    [[searchTerm, selectedTags, authorFilter, showPrivateOnly, activeTab]]
    of the page-reset effect differs between two renders. Strings and
    booleans are compared by value. [selectedTags] is an array and is compared
    by identity: the one call of its setter passes a new array literal, so
    after that call it always differs. *)
Definition resetDepsChanged (a : Action) (old new : ShowcaseState) : bool :=
  negb (String.eqb (searchTerm old) (searchTerm new))
  || match a with SetSelectedTags _ => true | _ => false end
  || negb (String.eqb (authorFilter old) (authorFilter new))
  || negb (Bool.eqb (showPrivateOnly old) (showPrivateOnly new))
  || negb (String.eqb (activeTab old) (activeTab new)).

(** One user action: the setter runs, the page renders again, and the effect
    [useEffect(() => setCurrentPage(1), [...])] fires if a dependency changed. *)
Definition dispatch (a : Action) (st : ShowcaseState) : ShowcaseState :=
  let st' := applySetter a st in
  if resetDepsChanged a st st' then setCurrentPage 1 st' else st'.

(** ** FavoriteSync: [toggleFavorite] and [useToggleFavorite] *)

Record FavoriteToggleRequest := {
  item_id : string;
  item_type : ItemType;
  item_name : string;
  item_description : option string;
  item_author : option string
}.

Record FavoriteToggleResponse := {
  is_favorited : bool;
  message : string;
  favorite_id : option string
}.

(** [a || b] on optional strings *)
Definition or_else (a b : option string) : option string :=
  match a with
  | Some s => if truthy_string s then a else b
  | None => b
  end.

(** [[...(storeData?.flows || []), ...(storeData?.components || [])]] *)
Definition allItems (st : ShowcaseState) : list StoreItem :=
  match storeData st with
  | Some sd => flows sd ++ components sd
  | None => []
  end.

(** [toggleFavorite] up to its [await]: the item is looked up and the request
    handed to [mutateAsync]. The mutation has no [onMutate] callback, and
    nothing is written to the page state or to the query cache here. *)
Definition toggleFavorite_start (st : ShowcaseState) (itemId : string)
  : ShowcaseState * option FavoriteToggleRequest :=
  match List.find (fun i => String.eqb (id i) itemId) (allItems st) with
  | None => (st, None)
  | Some item =>
      (st, Some {| item_id := itemId;
                   item_type := type item;
                   item_name := name item;
                   item_description := Some (description item);
                   item_author :=
                     match author item with
                     | Some a => or_else (username a) (full_name a)
                     | None => None
                     end |})
  end.

(** How the POST to [/favorites/toggle] ends. *)
Inductive ToggleOutcome :=
| ToggleResolved (result : FavoriteToggleResponse)
| ToggleRejected.

(** [toggleFavorite] after its [await]. On success [onSuccess] invalidates the
    favorites queries and the response message is shown; on failure the
    [catch] block raises the error alert. *)
Definition toggleFavorite_settle (st : ShowcaseState) (o : ToggleOutcome)
  : ShowcaseState :=
  match o with
  | ToggleResolved result =>
      raiseAlert (SuccessData (message result))
                 (setFavoritesQuery (favoriteItemIds st) true st)
  | ToggleRejected =>
      raiseAlert (ErrorData "Failed to update favorites" ["Please try again later."]) st
  end.

(** The refetch of an invalidated query delivers the server's list. *)
Definition favoritesRefetched (st : ShowcaseState) (ids : list string) : ShowcaseState :=
  setFavoritesQuery ids false st.

(** [isFavorite={favorites.has(item.id)}]: what a card displays. *)
Definition isFavorite (st : ShowcaseState) (itemId : string) : bool :=
  has (favorites st) itemId.

(** ** Grab: [grabFlow] *)

(** The payload handed to [addFlowMutation]; the fields the source sets to
    [undefined] are left out. *)
Record NewFlow := {
  flow_name : string;
  flow_description : string;
  flow_data : JsValue;
  folder_id : string;
  is_component : bool
}.

(** [{ nodes: [], edges: [], viewport: { zoom: 1, x: 0, y: 0 } }] *)
Definition emptyFlowData : JsValue :=
  JObj [("nodes", JArr []); ("edges", JArr []);
        ("viewport", JObj [("zoom", JNum 1); ("x", JNum 0); ("y", JNum 0)])].

(** [grabFlow] up to its [await]. *)
Definition grabFlow_start (st : ShowcaseState) (item : StoreItem)
  : ShowcaseState * option NewFlow :=
  if has (grabbingItems st) (id item) then (st, None)
  else
    (setGrabbingItems (grabbingItems st ∪ {[ id item ]}) st,
     Some {| flow_name := name item ++ " (Grabbed)";
             flow_description := description item;
             flow_data := emptyFlowData;
             folder_id := match myCollectionId st with
                          | Some s => if truthy_string s then s else ""
                          | None => ""
                          end;
             is_component := match type item with
                             | COMPONENT => true
                             | FLOW => false
                             end |}).

Inductive GrabOutcome := GrabResolved | GrabRejected.

Definition dquote : string := String (ascii_of_nat 34) EmptyString.

(** [grabFlow] after its [await]: the alert, then the [finally] block. *)
Definition grabFlow_settle (st : ShowcaseState) (item : StoreItem) (o : GrabOutcome)
  : ShowcaseState :=
  let st1 :=
    match o with
    | GrabResolved =>
        raiseAlert (SuccessData ("Flow grabbed successfully! " ++ dquote ++ name item
                                 ++ dquote ++ " has been added to your workspace")) st
    | GrabRejected =>
        raiseAlert (ErrorData "Failed to grab flow" ["Please try again later."]) st
    end in
  setGrabbingItems (grabbingItems st1 ∖ {[ id item ]}) st1.

(** ** Preview: [loadFlowData] and [createPlaceholderFlow] of
    [FlowPreviewDialog] *)

Record FlowData := {
  nodes : JsValue;
  edges : JsValue;
  viewport : JsValue
}.

Definition position (x y : Z) : JsValue := JObj [("x", JNum x); ("y", JNum y)].

(** [{ x: 0, y: 0, zoom: 1 }] *)
Definition defaultViewport : JsValue :=
  JObj [("x", JNum 0); ("y", JNum 0); ("zoom", JNum 1)].

Definition createPlaceholderFlow (item : StoreItem) : FlowData :=
  let centerX := 250 in
  let centerY := 150 in
  match type item with
  | COMPONENT =>
      {| nodes :=
           JArr [JObj [("id", JStr "component-1");
                       ("type", JStr "default");
                       ("position", position centerX centerY);
                       ("data", JObj [("label", JStr (name item));
                                      ("description", JStr (description item))]);
                       ("style", JObj [("background", JStr "#f3f4f6");
                                       ("border", JStr "2px solid #e5e7eb");
                                       ("borderRadius", JStr "8px");
                                       ("padding", JStr "10px");
                                       ("minWidth", JStr "200px")])]];
         edges := JArr [];
         viewport := defaultViewport |}
  | FLOW =>
      {| nodes :=
           JArr [JObj [("id", JStr "start-1");
                       ("type", JStr "input");
                       ("position", position 50 centerY);
                       ("data", JObj [("label", JStr "Input")]);
                       ("style", JObj [("background", JStr "#dbeafe");
                                       ("border", JStr "2px solid #3b82f6")])];
                 JObj [("id", JStr "process-1");
                       ("type", JStr "default");
                       ("position", position centerX centerY);
                       ("data", JObj [("label", JStr (name item))]);
                       ("style", JObj [("background", JStr "#f3f4f6");
                                       ("border", JStr "2px solid #e5e7eb")])];
                 JObj [("id", JStr "output-1");
                       ("type", JStr "output");
                       ("position", position 450 centerY);
                       ("data", JObj [("label", JStr "Output")]);
                       ("style", JObj [("background", JStr "#dcfce7");
                                       ("border", JStr "2px solid #22c55e")])]];
         edges :=
           JArr [JObj [("id", JStr "e1-2");
                       ("source", JStr "start-1");
                       ("target", JStr "process-1");
                       ("type", JStr "smoothstep")];
                 JObj [("id", JStr "e2-3");
                       ("source", JStr "process-1");
                       ("target", JStr "output-1");
                       ("type", JStr "smoothstep")]];
         viewport := defaultViewport |}
  end.

(** How [fetch] and [response.json()] end: the fetch rejects, or it delivers
    a response with its [ok] flag and a body, where the body [None] is one
    that [response.json()] fails to parse. *)
Inductive FetchResult :=
| FetchRejected
| Response (ok : bool) (body : option JsValue).

(** The dialog state [loadFlowData] leaves behind. *)
Record PreviewState := {
  flowData : option FlowData;
  loading : bool;
  error : option string
}.

(** The [try] block of [loadFlowData]: the value handed to [setFlowData], or
    a throw that lands in the [catch] block. *)
Definition tryLoad (item : StoreItem) (r : FetchResult) : Completion FlowData :=
  match r with
  | FetchRejected => Throw TypeError
  | Response false _ => Normal (createPlaceholderFlow item)
  | Response true None => Throw SyntaxError
  | Response true (Some data) =>
      d <-- get_property data "data" ;;;
      if truthy d then
        n <-- get_property d "nodes" ;;;
        if truthy n then
          e <-- get_property d "edges" ;;;
          if truthy e then
            v <-- get_property d "viewport" ;;;
            Normal {| nodes := if truthy n then n else JArr [];
                      edges := if truthy e then e else JArr [];
                      viewport := if truthy v then v else defaultViewport |}
          else Normal (createPlaceholderFlow item)
        else Normal (createPlaceholderFlow item)
      else Normal (createPlaceholderFlow item)
  end.

Definition loadFlowData (item : StoreItem) (r : FetchResult) : PreviewState :=
  match tryLoad item r with
  | Normal fd => {| flowData := Some fd; loading := false; error := None |}
  | Throw _ =>
      {| flowData := Some (createPlaceholderFlow item); loading := false;
         error := Some "Failed to load flow preview" |}
  end.

(** ** Download: [sanitizeFilename] and [handleDownload]

    The regular expressions work on the characters of the name, taken here as
    code units below 256. *)

(** [\s] (and the characters [trim] removes): tab, line feed, vertical tab,
    form feed, carriage return, space and no-break space. *)
Definition is_space (c : ascii) : bool :=
  let n := nat_of_ascii c in
  ((n =? 9) || (n =? 10) || (n =? 11) || (n =? 12) || (n =? 13) || (n =? 32)
   || (n =? 160))%nat.

(** The class [[()]]. *)
Definition is_paren (c : ascii) : bool :=
  let n := nat_of_ascii c in
  ((n =? 40) || (n =? 41))%nat.

(** The class of the second replacement: less-than, greater-than, colon,
    double quote, slash, backslash, bar, question mark and asterisk. *)
Definition is_invalid (c : ascii) : bool :=
  let n := nat_of_ascii c in
  ((n =? 60) || (n =? 62) || (n =? 58) || (n =? 34) || (n =? 47) || (n =? 92)
   || (n =? 124) || (n =? 63) || (n =? 42))%nat.

Definition is_plus (c : ascii) : bool := (nat_of_ascii c =? 43)%nat.

(** The class [[a-zA-Z0-9]]. *)
Definition is_alnum (c : ascii) : bool :=
  let n := nat_of_ascii c in
  (((97 <=? n) && (n <=? 122)) || ((65 <=? n) && (n <=? 90))
   || ((48 <=? n) && (n <=? 57)))%nat.

Definition space : ascii := ascii_of_nat 32.

Definition underscore : ascii := ascii_of_nat 95.

(** [s.replace(/[class]/g, '')] *)
Definition remove_chars (class : ascii -> bool) (l : list ascii) : list ascii :=
  List.filter (fun c => negb (class c)) l.

(** Where the scan for [/\s*\+\s*/g] stands: it holds the white space read
    since the last other character, which a plus sign would swallow, or it
    has just replaced a plus sign and is swallowing the white space after it. *)
Inductive PlusScan :=
| Pending (w : list ascii)
| AfterPlus.

(** [s.replace(/\s*\+\s*/g, '  ')]: each plus sign goes together with all
    the white space around it, and two spaces take their place. *)
Fixpoint replace_plus (m : PlusScan) (l : list ascii) : list ascii :=
  match l with
  | [] => match m with Pending w => w | AfterPlus => [] end
  | c :: l' =>
      if is_plus c then space :: space :: replace_plus AfterPlus l'
      else if is_space c then
        match m with
        | Pending w => replace_plus (Pending (w ++ [c])) l'
        | AfterPlus => replace_plus AfterPlus l'
        end
      else
        match m with
        | Pending w => w ++ c :: replace_plus (Pending []) l'
        | AfterPlus => c :: replace_plus (Pending []) l'
        end
  end.

(** What a run of white space becomes under [/\s{3,}/g]. *)
Definition squeeze_run (w : list ascii) : list ascii :=
  if (3 <=? length w)%nat then [space; space] else w.

(** [s.replace(/\s{3,}/g, '  ')]: [w] is the run of white space read so far. *)
Fixpoint squeeze_spaces (w : list ascii) (l : list ascii) : list ascii :=
  match l with
  | [] => squeeze_run w
  | c :: l' =>
      if is_space c then squeeze_spaces (w ++ [c]) l'
      else squeeze_run w ++ c :: squeeze_spaces [] l'
  end.

Fixpoint trim_start (l : list ascii) : list ascii :=
  match l with
  | [] => []
  | c :: l' => if is_space c then trim_start l' else l
  end.

Fixpoint trim_end (l : list ascii) : list ascii :=
  match l with
  | [] => []
  | c :: l' =>
      match trim_end l' with
      | [] => if is_space c then [] else [c]
      | t => c :: t
      end
  end.

(** [s.trim()] *)
Definition trim (l : list ascii) : list ascii := trim_end (trim_start l).

(** The five steps of [sanitizeFilename] on the characters of the name. *)
Definition sanitize_chars (l : list ascii) : list ascii :=
  trim (squeeze_spaces []
          (replace_plus (Pending [])
             (remove_chars is_invalid (remove_chars is_paren l)))).

Definition sanitizeFilename (name : string) : string :=
  string_of_list_ascii (sanitize_chars (list_ascii_of_string name)).

(** [item.name.replace(/[^a-zA-Z0-9]/g, '_')] followed by [.json]: the name
    the browser saves the file under. *)
Definition downloadName (item : StoreItem) : string :=
  string_of_list_ascii
    (List.map (fun c => if is_alnum c then c else underscore)
              (list_ascii_of_string (name item)))
  ++ ".json".

(** The path [handleDownload] fetches. *)
Definition filePath (item : StoreItem) : string :=
  "/store_components_converted/"
  ++ (match type item with FLOW => "flows" | COMPONENT => "components" end)
  ++ "/" ++ id item ++ "_" ++ sanitizeFilename (name item) ++ ".json".

(** [handleDownload] up to its first [await], on the set [downloadingItems]:
    the set afterwards and the path fetched, if any. *)
Definition handleDownload_start (downloadingItems : gset string) (item : StoreItem)
  : gset string * option string :=
  if has downloadingItems (id item) then (downloadingItems, None)
  else (downloadingItems ∪ {[ id item ]}, Some (filePath item)).

(** How the download ends: the file is saved, or something on the way threw
    an error with the given message. *)
Inductive DownloadOutcome :=
| DownloadSaved
| DownloadFailed (message : string).

(** [handleDownload] after its [await]s: the alert, then the [finally] block. *)
Definition handleDownload_settle (st : ShowcaseState) (downloadingItems : gset string)
    (item : StoreItem) (o : DownloadOutcome) : ShowcaseState * gset string :=
  (match o with
   | DownloadSaved =>
       raiseAlert (SuccessData ((match type item with
                                 | FLOW => "Flow"
                                 | COMPONENT => "Component"
                                 end) ++ " downloaded successfully!")) st
   | DownloadFailed message =>
       raiseAlert (ErrorData "Download failed"
                     ["Could not download " ++ name item; message;
                      "Please try again later"]) st
   end,
   downloadingItems ∖ {[ id item ]}).

(** ** Facets: [allTags] and [allAuthors] *)

(** [set.add(x)] on a [Set] kept in insertion order. *)
Definition set_add (s : list string) (x : string) : list string :=
  if array_includes s x then s else (s ++ [x])%list.

(** [arr.sort()] on strings: ascending by code units. *)
Definition default_sort (l : list string) : list string :=
  array_sort compare_code_units l.

(** The inner [forEach] of [allTags]: the named tags of one item join the set. *)
Definition add_item_tags (tagSet : list string) (item : StoreItem) : list string :=
  match tags item with
  | Some ts =>
      fold_left (fun acc tag =>
                   match tag_entry_name tag with
                   | Some n => if truthy_string n then set_add acc n else acc
                   | None => acc
                   end) ts tagSet
  | None => tagSet
  end.

Definition allTags (st : ShowcaseState) : list string :=
  match storeData st with
  | None => []
  | Some sd => default_sort (fold_left add_item_tags (flows sd ++ components sd) [])
  end.

Definition add_item_author (authorSet : list string) (item : StoreItem) : list string :=
  match author_username item with
  | Some u => if truthy_string u then set_add authorSet u else authorSet
  | None => authorSet
  end.

Definition allAuthors (st : ShowcaseState) : list string :=
  match storeData st with
  | None => []
  | Some sd => default_sort (fold_left add_item_author (flows sd ++ components sd) [])
  end.

(** ** Pagination controls and "Clear all filters" *)

(** The handlers of the First, Previous, Next and Last buttons; [total] is
    [totalPages] of the render the button belongs to. *)
Definition goFirst (st : ShowcaseState) : ShowcaseState :=
  dispatch (SetCurrentPage 1) st.

Definition goPrevious (st : ShowcaseState) : ShowcaseState :=
  dispatch (SetCurrentPage (Z.max 1 (currentPage st - 1))) st.

Definition goNext (total : Z) (st : ShowcaseState) : ShowcaseState :=
  dispatch (SetCurrentPage (Z.min total (currentPage st + 1))) st.

Definition goLast (total : Z) (st : ShowcaseState) : ShowcaseState :=
  dispatch (SetCurrentPage total) st.

(** The handler of "Clear all filters": four setters in a row. React applies
    them in one render; the state reached is the same. *)
Definition clearAllFilters (st : ShowcaseState) : ShowcaseState :=
  dispatch (SetShowPrivateOnly false)
    (dispatch (SetAuthorFilter "")
       (dispatch (SetSelectedTags [])
          (dispatch (SetSearchTerm "") st))).

(** ** Predicates used in the statements *)

(** [a] may stand before [b] under the comparator. *)
Definition in_order {A} (cmp : A -> A -> Z) (a b : A) : Prop := (cmp a b <= 0)%Z.

(** Of two elements, one may stand before the other. Every consistent
    comparator is of this kind, and ECMAScript requires [localeCompare] to be
    one. *)
Definition total_comparator {A} (cmp : A -> A -> Z) : Prop :=
  forall a b, (0 < cmp a b)%Z -> (cmp b a <= 0)%Z.

(** The response is OK and its body parses to a value whose [data], [data.nodes]
    and [data.edges] are all truthy; [n], [e] and [v] are [data.nodes],
    [data.edges] and [data.viewport]. *)
Definition PayloadPresent (r : FetchResult) (n e v : JsValue) : Prop :=
  exists data d,
    r = Response true (Some data)
    /\ get_property data "data" = Normal d /\ truthy d = true
    /\ get_property d "nodes" = Normal n /\ truthy n = true
    /\ get_property d "edges" = Normal e /\ truthy e = true
    /\ get_property d "viewport" = Normal v.

(** Following the specification's wording: the stored payload has a non-empty
    node list and a non-empty edge list. *)
Definition spec_has_nonempty_lists (data : JsValue) : bool :=
  match get_property data "data" with
  | Normal d =>
      match get_property d "nodes", get_property d "edges" with
      | Normal (JArr (_ :: _)), Normal (JArr (_ :: _)) => true
      | _, _ => false
      end
  | Throw _ => false
  end.

(** A character [sanitizeFilename] is meant to get rid of. *)
Definition forbidden_char (c : ascii) : bool :=
  is_paren c || is_invalid c || is_plus c.

(** No three white-space characters in a row. *)
Fixpoint no_space_triple (l : list ascii) : bool :=
  match l with
  | [] => true
  | a :: l' =>
      negb (is_space a
            && match l' with
               | b :: c :: _ => is_space b && is_space c
               | _ => false
               end)
      && no_space_triple l'
  end.

Definition first_is_space (l : list ascii) : bool :=
  match l with
  | c :: _ => is_space c
  | [] => false
  end.

Fixpoint last_is_space (l : list ascii) : bool :=
  match l with
  | [] => false
  | c :: l' =>
      match l' with
      | [] => is_space c
      | _ => last_is_space l'
      end
  end.

(** The elements of an array value, and a property of an object value. *)
Definition elements (v : JsValue) : list JsValue :=
  match v with
  | JArr es => es
  | _ => []
  end.

Definition field (k : string) (v : JsValue) : JsValue :=
  match v with
  | JObj props => own_property k props
  | _ => JUndefined
  end.

(** ** Sample data *)

(** A sample item with the given id, name, type, author, download and like
    counts, and tags. *)
Definition mkItem (i n : string) (t : ItemType) (a : option Author)
    (dl lk : Z) (tg : option (list (option Tag))) : StoreItem :=
  {| id := i; name := n; description := "A sample item"; type := t;
     author := a; stats := {| downloads := dl; likes := lk |};
     dates := {| created := "1000"; updated := "2000" |};
     tags := tg; technical := None |}.

Definition mkTag (n : string) : option Tag :=
  Some {| tags_id := Some {| tag_name := Some n; tag_id := Some n |} |}.

Definition alice : option Author :=
  Some {| username := Some "alice"; full_name := None |}.

Definition sampleStore (fl co : list StoreItem) : StoreData :=
  {| flows := fl; components := co;
     summary := {| total_items := Z.of_nat (length fl + length co);
                   total_flows := Z.of_nat (length fl);
                   total_components := Z.of_nat (length co) |} |}.

Definition flowA : StoreItem := mkItem "f1" "Alpha" FLOW alice 0 1 (Some [mkTag "nlp"]).
Definition flowB : StoreItem := mkItem "f2" "Beta" FLOW alice 2 3 (Some [mkTag "vision"]).
Definition orphan : StoreItem := mkItem "c1" "Gamma" COMPONENT None 0 0 None.

Definition withStore (sd : StoreData) : ShowcaseState :=
  setStoreData (Some sd) initialState.

(** The sample catalog on the "all" tab with the tag "nlp" selected. *)
Definition nlpSelected : ShowcaseState :=
  setSelectedTags ["nlp"] (withStore (sampleStore [flowA; flowB] [orphan])).

(** The sample catalog on the "flows" tab, sorted by likes. *)
Definition flowsByLikes : ShowcaseState :=
  setSortBy "likes" (setActiveTab "flows" (withStore (sampleStore [flowA; flowB] []))).

(** The sample catalog with the author filter "al". *)
Definition authorAl : ShowcaseState :=
  setAuthorFilter "al" (withStore (sampleStore [flowA; flowB] [orphan])).

(** The initial page state, moved to page 3. *)
Definition onPage3 : ShowcaseState := setCurrentPage 3 initialState.

(** The sample catalog with no favorites: the state in which "f1" is toggled. *)
Definition noFavorites : ShowcaseState :=
  withStore (sampleStore [flowA; flowB] [orphan]).

(** The request [grabFlow] sends for the sample flow "Alpha". *)
Definition grabbedAlpha : NewFlow :=
  {| flow_name := "Alpha (Grabbed)"; flow_description := "A sample item";
     flow_data := emptyFlowData; folder_id := ""; is_component := false |}.

(** A stored graph with no nodes and no edges. *)
Definition emptyGraphPayload : JsValue :=
  JObj [("data", JObj [("nodes", JArr []); ("edges", JArr [])])].

(** A stored graph with one node, one edge and a viewport of its own. *)
Definition storedViewport : JsValue :=
  JObj [("x", JNum 10); ("y", JNum 20); ("zoom", JNum 2)].

Definition smallGraphPayload : JsValue :=
  JObj [("data", JObj [("nodes", JArr [JObj [("id", JStr "n1")]]);
                       ("edges", JArr [JObj [("id", JStr "e1")]]);
                       ("viewport", storedViewport)])].

(** * Properties *)

(** ** Arrays: [filter] and [sort] *)

Section ArrayFacts.
Context {A : Type}.

Lemma filter_fixed (f : A -> bool) (l : list A) :
  Forall (fun x => f x = true) l -> List.filter f l = l.
Proof.
  induction 1 as [|x l Hx _ IH]; simpl.
  - reflexivity.
  - rewrite Hx, IH. reflexivity.
Qed.

Lemma array_filter_spec (p : A -> Completion bool) (l l' : list A) :
  array_filter p l = Normal l' ->
  forall x, In x l' <-> In x l /\ p x = Normal true.
Proof.
  revert l'. induction l as [|y l IH]; simpl; intros l' H x.
  - inversion H; subst. simpl. tauto.
  - destruct (p y) as [b|] eqn:Hy; simpl in H; [|discriminate].
    destruct (array_filter p l) as [rest|] eqn:Hrest; simpl in H; [|discriminate].
    inversion H; subst; clear H.
    specialize (IH rest eq_refl x).
    destruct b; simpl; rewrite ?IH.
    + split.
      * intros [->|[Hin Hp]]; auto.
      * intros [[->|Hin] Hp]; auto.
    + split.
      * intros [Hin Hp]; auto.
      * intros [[->|Hin] Hp]; [congruence | auto].
Qed.

Lemma array_filter_fixed (p : A -> Completion bool) (l : list A) :
  Forall (fun x => p x = Normal true) l -> array_filter p l = Normal l.
Proof.
  induction 1 as [|x l Hx _ IH]; simpl.
  - reflexivity.
  - rewrite Hx, IH. reflexivity.
Qed.

Variable cmp : A -> A -> Z.

Lemma insert_sorted_In (x y : A) (l : list A) :
  In y (insert_sorted cmp x l) <-> y = x \/ In y l.
Proof.
  induction l as [|z l IH]; simpl.
  - intuition.
  - destruct (Z.leb (cmp x z) 0); simpl; rewrite ?IH; intuition.
Qed.

Lemma array_sort_In (y : A) (l : list A) :
  In y (array_sort cmp l) <-> In y l.
Proof.
  induction l as [|x l IH]; simpl.
  - tauto.
  - rewrite insert_sorted_In, IH. intuition.
Qed.

Lemma insert_sorted_Permutation (x : A) (l : list A) :
  Permutation (insert_sorted cmp x l) (x :: l).
Proof.
  induction l as [|z l IH]; simpl.
  - apply Permutation_refl.
  - destruct (Z.leb (cmp x z) 0).
    + apply Permutation_refl.
    + eapply perm_trans; [apply perm_skip, IH | apply perm_swap].
Qed.

Lemma array_sort_Permutation (l : list A) : Permutation (array_sort cmp l) l.
Proof.
  induction l as [|x l IH]; simpl.
  - apply perm_nil.
  - eapply perm_trans; [apply insert_sorted_Permutation | apply perm_skip, IH].
Qed.

Lemma insert_sorted_Sorted (x : A) (l : list A) :
  total_comparator cmp -> Sorted (in_order cmp) l -> Sorted (in_order cmp) (insert_sorted cmp x l).
Proof.
  intros Htot. induction 1 as [|z l Hl IH Hhd]; simpl.
  - repeat constructor.
  - destruct (Z.leb (cmp x z) 0) eqn:Hc.
    + apply Z.leb_le in Hc. repeat constructor; assumption.
    + apply Z.leb_gt in Hc. constructor; [assumption|].
      destruct l as [|w l]; simpl.
      * constructor. apply Htot, Hc.
      * simpl in IH. destruct (Z.leb (cmp x w) 0).
        -- constructor. apply Htot, Hc.
        -- inversion Hhd; subst. constructor. assumption.
Qed.

Lemma array_sort_Sorted (l : list A) :
  total_comparator cmp -> Sorted (in_order cmp) (array_sort cmp l).
Proof.
  intros Htot. induction l as [|x l IH]; simpl.
  - constructor.
  - apply insert_sorted_Sorted; assumption.
Qed.

Lemma array_sort_fixed (l : list A) :
  Sorted (in_order cmp) l -> array_sort cmp l = l.
Proof.
  induction 1 as [|x l Hl IH Hhd]; simpl.
  - reflexivity.
  - change (array_sort cmp (x :: l)) with (insert_sorted cmp x (array_sort cmp l)).
    rewrite IH.
    destruct Hhd as [|y l Hxy]; simpl.
    + reflexivity.
    + apply Z.leb_le in Hxy. rewrite Hxy. reflexivity.
Qed.

Lemma array_sort_idempotent (l : list A) :
  total_comparator cmp -> array_sort cmp (array_sort cmp l) = array_sort cmp l.
Proof.
  intros Htot. apply array_sort_fixed, array_sort_Sorted, Htot.
Qed.

End ArrayFacts.

(** ** FilterEngine *)

Section FilterFacts.
Context {host : JsHost}.

Lemma array_includes_In (arr : list string) (x : string) :
  array_includes arr x = true <-> In x arr.
Proof.
  unfold array_includes. rewrite existsb_exists. split.
  - intros [y [Hin Heq]]. apply String.eqb_eq in Heq. subst. exact Hin.
  - intros Hin. exists x. split; [exact Hin | apply String.eqb_refl].
Qed.

Lemma matchesTags_hasSelectedTag (selected : list string) (item : StoreItem) :
  matchesTags selected item = true -> hasSelectedTag selected item.
Proof.
  unfold matchesTags, hasSelectedTag. intros H.
  destruct (tags item) as [ts|]; [|discriminate].
  apply existsb_exists in H. destruct H as [tag [Hin Htag]].
  unfold tag_entry_name in Htag.
  destruct tag as [t|]; [|discriminate].
  destruct (tags_id t) as [tid|] eqn:Htid; [|discriminate].
  destruct (tag_name tid) as [n|] eqn:Hn; [|discriminate].
  apply andb_prop in Htag. destruct Htag as [_ Hsel].
  apply array_includes_In in Hsel.
  exists ts, t, tid, n. auto.
Qed.

Lemma nonempty_length (l : list string) :
  (0 <? Z.of_nat (length l))%Z = true <-> l <> [].
Proof.
  rewrite Z.ltb_lt.
  destruct l; simpl length; split; intros H; try congruence; try lia.
Qed.

Lemma deref_sort_in_place cmp (sd : StoreData) (r : ItemsRef) :
  deref (fst (sort_in_place cmp sd r)) (snd (sort_in_place cmp sd r))
  = array_sort cmp (deref sd r).
Proof. destruct r; reflexivity. Qed.

(** What [getFilteredItems] returns, given the array its filter blocks end on. *)
Lemma getFilteredItems_unfold (st : ShowcaseState) (sd : StoreData) :
  storeData st = Some sd ->
  fst <$> (match getFilteredItems st with
           | Normal p => Some p
           | Throw _ => None
           end)
  = match applyFilters st sd (selectTab st sd) with
    | Normal r => Some (sortList (sortBy st) (deref sd r))
    | Throw _ => None
    end.
Proof.
  intros Hsd. unfold getFilteredItems, sortList. rewrite Hsd.
  destruct (applyFilters st sd (selectTab st sd)) as [r|]; simpl; [|reflexivity].
  destruct (comparator (sortBy st)) as [cmp|]; simpl; [|reflexivity].
  rewrite <- deref_sort_in_place.
  destruct (sort_in_place cmp sd r). reflexivity.
Qed.

Lemma getFilteredItems_inv (st : ShowcaseState) (sd : StoreData) out sd' :
  storeData st = Some sd ->
  getFilteredItems st = Normal (out, sd') ->
  exists r, applyFilters st sd (selectTab st sd) = Normal r
            /\ out = sortList (sortBy st) (deref sd r).
Proof.
  intros Hsd Hrun. pose proof (getFilteredItems_unfold st sd Hsd) as H.
  rewrite Hrun in H. simpl in H.
  destruct (applyFilters st sd (selectTab st sd)) as [r|]; [|discriminate].
  exists r. split; [reflexivity | congruence].
Qed.

Lemma getFilteredItems_intro (st : ShowcaseState) (sd : StoreData) r :
  storeData st = Some sd ->
  applyFilters st sd (selectTab st sd) = Normal r ->
  exists sd', getFilteredItems st = Normal (sortList (sortBy st) (deref sd r), sd').
Proof.
  intros Hsd Hr. pose proof (getFilteredItems_unfold st sd Hsd) as H.
  rewrite Hr in H.
  destruct (getFilteredItems st) as [[out sd']|]; simpl in H; [|discriminate].
  exists sd'. congruence.
Qed.

Lemma sortList_In (sort : string) (l : list StoreItem) (x : StoreItem) :
  In x (sortList sort l) <-> In x l.
Proof.
  unfold sortList. destruct (comparator sort); [apply array_sort_In | tauto].
Qed.

(** The filter blocks keep exactly the items that get through them. *)
Lemma applyFilters_spec (st : ShowcaseState) (sd : StoreData) (r0 r : ItemsRef) :
  applyFilters st sd r0 = Normal r ->
  forall x, In x (deref sd r) <-> In x (deref sd r0) /\ passesFilters st x.
Proof.
  unfold applyFilters, passesFilters. intros H x.
  set (r1 := if truthy_string (searchTerm st) then _ else r0) in H.
  set (r2 := if (0 <? _)%Z then _ else r1) in H.
  assert (H1 : In x (deref sd r1) <-> In x (deref sd r0)
           /\ (truthy_string (searchTerm st) = true ->
               matchesSearch (toLowerCase (searchTerm st)) x = true)).
  { unfold r1. destruct (truthy_string (searchTerm st)); simpl.
    - rewrite filter_In. intuition.
    - intuition discriminate. }
  assert (H2 : In x (deref sd r2) <-> In x (deref sd r1)
           /\ (selectedTags st <> [] -> matchesTags (selectedTags st) x = true)).
  { unfold r2. destruct (0 <? Z.of_nat (length (selectedTags st)))%Z eqn:Hlen; simpl.
    - apply nonempty_length in Hlen. rewrite filter_In. intuition.
    - split; [|tauto]. intros Hin. split; [exact Hin|].
      intros Hne. apply nonempty_length in Hne. congruence. }
  clearbody r1 r2.
  destruct (truthy_string (authorFilter st)) eqn:Ha; simpl in H.
  - destruct (array_filter (matchesAuthor (authorFilter st)) (deref sd r2))
      as [l|] eqn:Hl; simpl in H; [|discriminate].
    pose proof (array_filter_spec _ _ _ Hl x) as H3.
    inversion H; subst r; clear H.
    destruct (showPrivateOnly st); simpl; rewrite ?filter_In, H3, H2, H1;
      intuition discriminate.
  - inversion H; subst r; clear H.
    destruct (showPrivateOnly st); simpl; rewrite ?filter_In, H2, H1;
      intuition discriminate.
Qed.

(** On an array whose items all get through, the filter blocks change nothing. *)
Lemma applyFilters_fixed (st : ShowcaseState) (sd : StoreData) (r0 : ItemsRef) :
  Forall (passesFilters st) (deref sd r0) ->
  exists r, applyFilters st sd r0 = Normal r /\ deref sd r = deref sd r0.
Proof.
  unfold applyFilters, passesFilters. intros Hall.
  set (r1 := if truthy_string (searchTerm st) then _ else r0).
  assert (E1 : deref sd r1 = deref sd r0).
  { subst r1. destruct (truthy_string (searchTerm st)); simpl; [|reflexivity].
    apply filter_fixed. eapply List.Forall_impl; [|exact Hall]. simpl. intuition. }
  set (r2 := if (0 <? _)%Z then _ else r1).
  assert (E2 : deref sd r2 = deref sd r0).
  { subst r2. destruct (0 <? Z.of_nat (length (selectedTags st)))%Z eqn:Hlen;
      simpl; [|exact E1].
    rewrite E1. apply filter_fixed. eapply List.Forall_impl; [|exact Hall]. simpl.
    intros a (_ & Ht & _). apply Ht, nonempty_length, Hlen. }
  destruct (truthy_string (authorFilter st)) eqn:Ha; simpl.
  - rewrite E2, array_filter_fixed.
    2:{ eapply List.Forall_impl; [|exact Hall]. simpl. intuition. }
    simpl. destruct (showPrivateOnly st) eqn:Hp; eexists; split; try reflexivity.
    simpl. apply filter_fixed. eapply List.Forall_impl; [|exact Hall]. simpl. intuition.
  - destruct (showPrivateOnly st) eqn:Hp; eexists; split; try reflexivity;
      simpl; [|exact E2].
    rewrite E2. apply filter_fixed. eapply List.Forall_impl; [|exact Hall]. simpl. intuition.
Qed.

(** The numeric comparators and the date comparator order any two items. *)
Lemma comparator_total (sort : string) cmp :
  total_comparator localeCompare ->
  comparator sort = Some cmp -> total_comparator cmp.
Proof.
  unfold comparator, total_comparator. intros Hloc H.
  repeat match type of H with
         | (if ?c then _ else _) = _ => destruct c
         end; inversion H; subst; clear H; intros a b;
    unfold cmp_popular, cmp_recent, cmp_alphabetical, cmp_downloads, cmp_likes.
  - lia.
  - destruct (getTime (updated (dates a))), (getTime (updated (dates b))); lia.
  - apply Hloc.
  - lia.
  - lia.
Qed.

Lemma sortList_idempotent (sort : string) (l : list StoreItem) :
  total_comparator localeCompare ->
  sortList sort (sortList sort l) = sortList sort l.
Proof.
  intros Hloc. unfold sortList.
  destruct (comparator sort) as [cmp|] eqn:Hc; [|reflexivity].
  apply array_sort_idempotent. eapply comparator_total; eassumption.
Qed.

(** What a run of [getFilteredItems] returns gets through the filter blocks
    and is in the order of the selected comparator. *)
Lemma getFilteredItems_output (st : ShowcaseState) out sd1 :
  total_comparator localeCompare ->
  getFilteredItems st = Normal (out, sd1) ->
  Forall (passesFilters st) out /\ sortList (sortBy st) out = out.
Proof.
  intros Hloc Hrun. destruct (storeData st) as [sd|] eqn:Hsd.
  - destruct (getFilteredItems_inv st sd out sd1 Hsd Hrun) as [r [Hr ->]].
    split; [|apply sortList_idempotent, Hloc].
    apply List.Forall_forall. intros x Hx. apply sortList_In in Hx.
    apply (applyFilters_spec st sd _ r Hr x) in Hx. tauto.
  - unfold getFilteredItems in Hrun. rewrite Hsd in Hrun.
    inversion Hrun; subst. split; [constructor|].
    unfold sortList. destruct (comparator (sortBy st)); reflexivity.
Qed.

(** A call that starts from an array of its own never writes to [storeData]. *)
Lemma applyFilters_own (st : ShowcaseState) (sd : StoreData) l r :
  applyFilters st sd (OwnArray l) = Normal r -> exists l', r = OwnArray l'.
Proof.
  unfold applyFilters. intros H.
  set (r1 := if truthy_string (searchTerm st) then _ else OwnArray l) in H.
  assert (H1 : exists l1, r1 = OwnArray l1).
  { unfold r1. destruct (truthy_string (searchTerm st)); eauto. }
  destruct H1 as [l1 ->].
  set (r2 := if (0 <? _)%Z then _ else OwnArray l1) in H.
  assert (H2 : exists l2, r2 = OwnArray l2).
  { unfold r2. destruct (0 <? _)%Z; eauto. }
  destruct H2 as [l2 ->].
  destruct (truthy_string (authorFilter st)); simpl in H.
  - destruct (array_filter _ l2) as [l3|]; simpl in H; [|discriminate].
    inversion H. destruct (showPrivateOnly st); eauto.
  - inversion H. destruct (showPrivateOnly st); eauto.
Qed.

Lemma getFilteredItems_all_tab_keeps_store (st : ShowcaseState) out sd' :
  activeTab st = "all" ->
  getFilteredItems st = Normal (out, sd') -> sd' = storeData st.
Proof.
  intros Htab Hrun. unfold getFilteredItems in Hrun.
  destruct (storeData st) as [sd|]; [|congruence].
  unfold selectTab in Hrun. rewrite Htab in Hrun. simpl in Hrun.
  destruct (applyFilters st sd (OwnArray (flows sd ++ components sd)))
    as [r|] eqn:Hr; simpl in Hrun; [|discriminate].
  apply applyFilters_own in Hr. destruct Hr as [l' ->].
  destruct (comparator (sortBy st)); simpl in Hrun; congruence.
Qed.

Lemma matchesAuthor_missing (filter : string) (item : StoreItem) :
  author_username item = None -> matchesAuthor filter item = Throw TypeError.
Proof.
  unfold author_username, matchesAuthor. intros H.
  destruct (author item) as [a|]; [|reflexivity].
  rewrite H. reflexivity.
Qed.

End FilterFacts.

Lemma compare_code_units_total : total_comparator compare_code_units.
Proof.
  intros a b. unfold compare_code_units.
  rewrite (String.compare_antisym b a).
  destruct (String.compare a b); simpl; lia.
Qed.

(** C7. With a non-empty tag selection, every item [getFilteredItems] returns
    carries at least one well-formed tag whose name is selected (an entry
    without a name counts for nothing), and it also gets through every other
    filter block and belongs to the collection of the active tab. *)
Theorem C7_selected_tag_in_every_result {host : JsHost}
    (st : ShowcaseState) (out : list StoreItem) (sd' : option StoreData) :
  selectedTags st <> [] ->
  getFilteredItems st = Normal (out, sd') ->
  forall item, In item out ->
    hasSelectedTag (selectedTags st) item
    /\ passesFilters st item
    /\ exists sd, storeData st = Some sd /\ In item (deref sd (selectTab st sd)).
Proof.
  intros Hne Hrun item Hin.
  destruct (storeData st) as [sd|] eqn:Hsd.
  - destruct (getFilteredItems_inv st sd out sd' Hsd Hrun) as [r [Hr ->]].
    apply sortList_In in Hin.
    apply (applyFilters_spec st sd _ r Hr item) in Hin.
    destruct Hin as [Hsel Hpass]. split; [|split].
    + apply matchesTags_hasSelectedTag. apply Hpass, Hne.
    + exact Hpass.
    + exists sd. split; [reflexivity | exact Hsel].
  - unfold getFilteredItems in Hrun. rewrite Hsd in Hrun.
    inversion Hrun; subst. destruct Hin.
Qed.

Lemma C7_selected_tag_witness :
  hasSelectedTag ["nlp"] flowA
  /\ passesFilters (host := ascii_host) nlpSelected flowA
  /\ exists sd, storeData nlpSelected = Some sd
                /\ In flowA (deref sd (selectTab nlpSelected sd)).
Proof.
  apply (C7_selected_tag_in_every_result (host := ascii_host) nlpSelected [flowA]
           (Some (sampleStore [flowA; flowB] [orphan]))).
  - vm_compute. discriminate.
  - vm_compute. reflexivity.
  - simpl. left. reflexivity.
Defined.

(** C8. Filtering is idempotent: when [getFilteredItems] has returned a list,
    running it again with the same criteria and favorites on a store whose
    collection for the active tab is that list returns the same list, in the
    same order. The host's [localeCompare] is taken to order any two strings
    one way or the other. *)
Theorem C8_filter_idempotent {host : JsHost}
    (st : ShowcaseState) (out : list StoreItem) (sd1 : option StoreData)
    (sd2 : StoreData) :
  total_comparator localeCompare ->
  getFilteredItems st = Normal (out, sd1) ->
  deref sd2 (selectTab (setStoreData (Some sd2) st) sd2) = out ->
  exists sd3, getFilteredItems (setStoreData (Some sd2) st) = Normal (out, sd3).
Proof.
  intros Hloc Hrun Hsel.
  destruct (getFilteredItems_output st out sd1 Hloc Hrun) as [Hpass Hsorted].
  set (st2 := setStoreData (Some sd2) st) in *.
  assert (Hpass2 : Forall (passesFilters st2) (deref sd2 (selectTab st2 sd2))).
  { rewrite Hsel. exact Hpass. }
  destruct (applyFilters_fixed st2 sd2 _ Hpass2) as [r [Hr Hd]].
  destruct (getFilteredItems_intro st2 sd2 r eq_refl Hr) as [sd3 Hrun2].
  exists sd3. rewrite Hrun2, Hd, Hsel.
  change (sortBy st2) with (sortBy st). rewrite Hsorted. reflexivity.
Qed.

Lemma C8_filter_idempotent_witness :
  exists sd3,
    getFilteredItems (host := ascii_host)
      (setStoreData (Some (sampleStore [flowB; flowA] [])) flowsByLikes)
    = Normal ([flowB; flowA], sd3).
Proof.
  apply (C8_filter_idempotent (host := ascii_host) flowsByLikes [flowB; flowA]
           (Some (sampleStore [flowB; flowA] [])) (sampleStore [flowB; flowA] [])).
  - exact compare_code_units_total.
  - vm_compute. reflexivity.
  - vm_compute. reflexivity.
Defined.

(** C10. The result of [getFilteredItems] depends only on the snapshot, the
    favorites and the criteria it reads: two page states that agree on those
    and differ in [typeFilter] or [showFavoritesOnly] (or in any other state)
    yield the identical ordered list. *)
Theorem C10_typeFilter_showFavoritesOnly_ignored {host : JsHost}
    (st1 st2 : ShowcaseState) :
  storeData st1 = storeData st2 ->
  favoriteItemIds st1 = favoriteItemIds st2 ->
  activeTab st1 = activeTab st2 ->
  searchTerm st1 = searchTerm st2 ->
  selectedTags st1 = selectedTags st2 ->
  authorFilter st1 = authorFilter st2 ->
  showPrivateOnly st1 = showPrivateOnly st2 ->
  sortBy st1 = sortBy st2 ->
  getFilteredItems st1 = getFilteredItems st2.
Proof.
  intros Hsd Hfav Htab Hsearch Htags Hauthor Hpriv Hsort.
  unfold getFilteredItems, applyFilters, selectTab, favorites.
  rewrite Hsd, Hfav, Htab, Hsearch, Htags, Hauthor, Hpriv, Hsort.
  reflexivity.
Qed.

Lemma C10_typeFilter_showFavoritesOnly_witness :
  getFilteredItems (host := ascii_host)
    (setShowFavoritesOnly true (setTypeFilter "COMPONENT" nlpSelected))
  = getFilteredItems (host := ascii_host) nlpSelected.
Proof.
  apply (C10_typeFilter_showFavoritesOnly_ignored (host := ascii_host)
           (setShowFavoritesOnly true (setTypeFilter "COMPONENT" nlpSelected))
           nlpSelected); reflexivity.
Defined.

(** On the "flows" tab with no filter active the sort lands in the store. *)
Lemma getFilteredItems_flows_tab_sorts_store {host : JsHost}
    (st : ShowcaseState) (sd : StoreData) cmp :
  storeData st = Some sd ->
  activeTab st = "flows" ->
  searchTerm st = "" -> selectedTags st = [] -> authorFilter st = "" ->
  showPrivateOnly st = false ->
  comparator (sortBy st) = Some cmp ->
  getFilteredItems st
  = Normal (array_sort cmp (flows sd),
            Some {| flows := array_sort cmp (flows sd);
                    components := components sd; summary := summary sd |}).
Proof.
  intros Hsd Htab Hs Ht Ha Hp Hc.
  unfold getFilteredItems, applyFilters, selectTab.
  rewrite Hsd, Htab, Hs, Ht, Ha, Hp, Hc. reflexivity.
Qed.

(** C4 (the code departs from it). On the "flows" tab with no filter active,
    [items] is the array held by [storeData], and sorting it reorders
    [storeData.flows] itself: after the call the store lists the flows in
    sorted order, not in the order of the snapshot. *)
Theorem C4_flows_tab_sort_reorders_store :
  storeData flowsByLikes = Some (sampleStore [flowA; flowB] [])
  /\ getFilteredItems (host := ascii_host) flowsByLikes
     = Normal ([flowB; flowA], Some (sampleStore [flowB; flowA] []))
  /\ sampleStore [flowB; flowA] [] <> sampleStore [flowA; flowB] [].
Proof.
  split; [reflexivity | split; [vm_compute; reflexivity | ]].
  intros H. apply (f_equal flows) in H. simpl in H. discriminate H.
Qed.

(** C6 (the code departs from it). With a non-empty author filter, an item
    without an author makes [getFilteredItems] throw a TypeError, while the
    search filter passes over the same item without throwing. *)
Theorem C6_author_filter_throws_on_missing_author :
  author orphan = None
  /\ getFilteredItems (host := ascii_host) authorAl = Throw TypeError
  /\ getFilteredItems (host := ascii_host)
       (setSearchTerm "gam" (withStore (sampleStore [flowA; flowB] [orphan])))
     = Normal ([orphan], Some (sampleStore [flowA; flowB] [orphan])).
Proof.
  split; [reflexivity | split; vm_compute; reflexivity].
Qed.

(** ** Paginator *)

Lemma totalPages_div {A} (l : list A) (p : Z) :
  (0 < p)%Z ->
  totalPages l p = (- ((- Z.of_nat (length l)) / p))%Z.
Proof.
  intros Hp. unfold totalPages, Qceiling, Qfloor.
  destruct p as [|p|p]; try lia.
  simpl. f_equal. f_equal; lia.
Qed.

(** C3 (as the code has it). For a page size above zero, [totalPages] is the
    ceiling of length over page size: the least number of pages that hold all
    the items. It is at least 1 exactly when the list is not empty; for the
    empty list it is 0. *)
Theorem C3_totalPages_is_ceiling {A} (l : list A) (p : Z) :
  (0 < p)%Z ->
  let n := Z.of_nat (length l) in
  totalPages l p = ((n + p - 1) / p)%Z
  /\ (p * (totalPages l p - 1) < n <= p * totalPages l p)%Z
  /\ ((1 <= totalPages l p)%Z <-> l <> []).
Proof.
  intros Hp n. rewrite (totalPages_div l p Hp). fold n.
  assert (Hn : (0 <= n)%Z) by (unfold n; lia).
  assert (Hq : (- (- n / p))%Z = ((n + p - 1) / p)%Z).
  { pose proof (Z.div_mod (- n) p) as E1. pose proof (Z.mod_pos_bound (- n) p Hp) as B1.
    apply (Z.div_unique_pos _ _ _ (p - 1 - (- n) mod p)%Z); lia. }
  rewrite Hq.
  pose proof (Z.div_mod (n + p - 1) p) as E. pose proof (Z.mod_pos_bound (n + p - 1) p Hp) as B.
  split; [reflexivity|]. split; [nia|].
  split.
  - intros H Hl. subst l. unfold n in *. simpl in *. nia.
  - intros Hl. assert (1 <= n)%Z by (unfold n; destruct l; simpl; [congruence | lia]).
    nia.
Qed.

Lemma C3_totalPages_witness :
  totalPages [flowA; flowB; orphan] 2 = 2
  /\ (2 * (totalPages [flowA; flowB; orphan] 2 - 1) < 3
      <= 2 * totalPages [flowA; flowB; orphan] 2)%Z
  /\ ((1 <= totalPages [flowA; flowB; orphan] 2)%Z <-> [flowA; flowB; orphan] <> []).
Proof.
  apply (C3_totalPages_is_ceiling [flowA; flowB; orphan] 2). lia.
Defined.

(** C3 as stated fails on the empty list: there are 0 pages, not 1. *)
Lemma C3_empty_list_has_zero_pages :
  totalPages (@nil StoreItem) 24 = 0
  /\ ~ (1 <= totalPages (@nil StoreItem) 24)%Z.
Proof.
  split; [reflexivity | vm_compute; intros H; apply H; reflexivity].
Qed.

(** ** Page reset *)

(** C5 as stated fails for the sort key: changing it leaves the page alone. *)
Lemma C5_sort_change_keeps_page :
  sortBy onPage3 = "popular"
  /\ sortBy (dispatch (SetSortBy "recent") onPage3) = "recent"
  /\ currentPage (dispatch (SetSortBy "recent") onPage3) = 3
  /\ currentPage (dispatch (SetSortBy "recent") onPage3) <> 1.
Proof.
  repeat split; try reflexivity. vm_compute. discriminate.
Qed.

(** C5 (as the code has it). Every change of the search term, of the author
    filter, of the private-only flag or of the active tab, and every call that
    sets the selected tags, puts the current page back to 1. Changing the sort
    key leaves the current page as it is. *)
Theorem C5_filter_change_resets_page (st : ShowcaseState) :
  (forall v, v <> searchTerm st -> currentPage (dispatch (SetSearchTerm v) st) = 1)
  /\ (forall v, currentPage (dispatch (SetSelectedTags v) st) = 1)
  /\ (forall v, v <> authorFilter st -> currentPage (dispatch (SetAuthorFilter v) st) = 1)
  /\ (forall v, v <> showPrivateOnly st ->
                currentPage (dispatch (SetShowPrivateOnly v) st) = 1)
  /\ (forall v, v <> activeTab st -> currentPage (dispatch (SetActiveTab v) st) = 1)
  /\ (forall v, currentPage (dispatch (SetSortBy v) st) = currentPage st).
Proof.
  unfold dispatch, resetDepsChanged. simpl.
  repeat split; intros v; try intros Hv.
  - assert (E : String.eqb (searchTerm st) v = false)
      by (apply String.eqb_neq; congruence).
    rewrite E. reflexivity.
  - rewrite String.eqb_refl. reflexivity.
  - assert (E : String.eqb (authorFilter st) v = false)
      by (apply String.eqb_neq; congruence).
    rewrite E, String.eqb_refl. reflexivity.
  - assert (E : Bool.eqb (showPrivateOnly st) v = false)
      by (apply Bool.eqb_false_iff; congruence).
    rewrite E, !String.eqb_refl. reflexivity.
  - assert (E : String.eqb (activeTab st) v = false)
      by (apply String.eqb_neq; congruence).
    rewrite E, !String.eqb_refl, Bool.eqb_reflx. reflexivity.
  - rewrite !String.eqb_refl, Bool.eqb_reflx. reflexivity.
Qed.

Lemma C5_filter_change_witness :
  currentPage (dispatch (SetSearchTerm "rag") onPage3) = 1.
Proof.
  apply (proj1 (C5_filter_change_resets_page onPage3) "rag").
  vm_compute. discriminate.
Defined.

(** ** Grab *)

(** C9. Unless the item is already being grabbed, [grabFlow] sends a creation
    request; and whatever it sends is named after the item with the suffix
    " (Grabbed)" and carries the empty graph (no nodes, no edges, viewport at
    the origin with zoom 1), whatever the item is. *)
Theorem C9_grab_sends_empty_copy (st : ShowcaseState) (item : StoreItem) :
  (has (grabbingItems st) (id item) = false ->
   exists payload, snd (grabFlow_start st item) = Some payload)
  /\ (forall payload, snd (grabFlow_start st item) = Some payload ->
        flow_name payload = name item ++ " (Grabbed)"
        /\ flow_data payload
           = JObj [("nodes", JArr []); ("edges", JArr []);
                   ("viewport", JObj [("zoom", JNum 1); ("x", JNum 0); ("y", JNum 0)])]
        /\ get_property (flow_data payload) "nodes" = Normal (JArr [])
        /\ get_property (flow_data payload) "edges" = Normal (JArr [])
        /\ (v <-- get_property (flow_data payload) "viewport" ;;;
            x <-- get_property v "x" ;;;
            y <-- get_property v "y" ;;;
            zoom <-- get_property v "zoom" ;;;
            Normal (x, y, zoom)) = Normal (JNum 0, JNum 0, JNum 1)).
Proof.
  unfold grabFlow_start. split.
  - intros Hfree. rewrite Hfree. simpl. eauto.
  - intros payload H. destruct (has (grabbingItems st) (id item)); simpl in H.
    + discriminate.
    + inversion H; subst; clear H. simpl. repeat split; reflexivity.
Qed.

Lemma C9_grab_witness :
  flow_name grabbedAlpha = name flowA ++ " (Grabbed)"
  /\ flow_data grabbedAlpha
     = JObj [("nodes", JArr []); ("edges", JArr []);
             ("viewport", JObj [("zoom", JNum 1); ("x", JNum 0); ("y", JNum 0)])]
  /\ get_property (flow_data grabbedAlpha) "nodes" = Normal (JArr [])
  /\ get_property (flow_data grabbedAlpha) "edges" = Normal (JArr [])
  /\ (v <-- get_property (flow_data grabbedAlpha) "viewport" ;;;
      x <-- get_property v "x" ;;;
      y <-- get_property v "y" ;;;
      zoom <-- get_property v "zoom" ;;;
      Normal (x, y, zoom)) = Normal (JNum 0, JNum 0, JNum 1).
Proof.
  apply (proj2 (C9_grab_sends_empty_copy initialState flowA) grabbedAlpha).
  vm_compute. reflexivity.
Defined.

(** ** Favorites *)

(** C1 as stated fails: the request for "f1" is sent and "f1" is displayed as
    before, not flipped. *)
Lemma C1_toggle_does_not_flip_display :
  snd (toggleFavorite_start noFavorites "f1") <> None
  /\ isFavorite noFavorites "f1" = false
  /\ isFavorite (fst (toggleFavorite_start noFavorites "f1")) "f1" = false
  /\ isFavorite (fst (toggleFavorite_start noFavorites "f1")) "f1"
     <> negb (isFavorite noFavorites "f1").
Proof.
  repeat split; try (vm_compute; reflexivity); vm_compute; discriminate.
Qed.

(** C1 (as the code has it). Sending a toggle changes nothing that is
    displayed: there is no optimistic flip. If the request fails, the favorite
    ids, the set built from them and the staleness of the query are exactly
    as before the toggle, and the error alert is raised. If it succeeds, the
    ids stay as they are and the query is marked stale; the display follows
    the server once the refetch delivers its list. *)
Theorem C1_toggle_leaves_favorites_until_refetch (st : ShowcaseState) (itemId : string) :
  let st1 := fst (toggleFavorite_start st itemId) in
  let failed := toggleFavorite_settle st1 ToggleRejected in
  (forall x, isFavorite st1 x = isFavorite st x)
  /\ favoriteItemIds failed = favoriteItemIds st
  /\ favorites failed = favorites st
  /\ favoritesStale failed = favoritesStale st
  /\ alerts failed
     = (alerts st ++ [ErrorData "Failed to update favorites" ["Please try again later."]])%list
  /\ (forall result,
        let done := toggleFavorite_settle st1 (ToggleResolved result) in
        favoriteItemIds done = favoriteItemIds st
        /\ favoritesStale done = true
        /\ alerts done = (alerts st ++ [SuccessData (message result)])%list
        /\ forall ids x, isFavorite (favoritesRefetched done ids) x = true <-> In x ids).
Proof.
  assert (E : fst (toggleFavorite_start st itemId) = st).
  { unfold toggleFavorite_start.
    destruct (find (fun i => String.eqb (id i) itemId) (allItems st)); reflexivity. }
  simpl. rewrite E. repeat split; try reflexivity.
  - unfold isFavorite, has, favorites, favoritesRefetched. simpl.
    intros H. apply bool_decide_eq_true in H.
    apply elem_of_list_to_set in H. apply list_elem_of_In. exact H.
  - unfold isFavorite, has, favorites, favoritesRefetched. simpl.
    intros H. apply bool_decide_eq_true.
    apply elem_of_list_to_set. apply list_elem_of_In. exact H.
Qed.

(** ** Preview *)

(** C2 as stated fails: a payload whose node and edge lists are both empty is
    shown as it is, an empty graph, not as the placeholder. *)
Lemma C2_empty_lists_bypass_placeholder :
  spec_has_nonempty_lists emptyGraphPayload = false
  /\ flowData (loadFlowData flowA (Response true (Some emptyGraphPayload)))
     = Some {| nodes := JArr []; edges := JArr []; viewport := defaultViewport |}
  /\ flowData (loadFlowData flowA (Response true (Some emptyGraphPayload)))
     <> Some (createPlaceholderFlow flowA).
Proof.
  repeat split; try reflexivity. vm_compute. discriminate.
Qed.

Lemma tryLoad_present (item : StoreItem) (r : FetchResult) n e v :
  PayloadPresent r n e v ->
  tryLoad item r
  = Normal {| nodes := n; edges := e;
              viewport := if truthy v then v else defaultViewport |}.
Proof.
  intros (data & d & -> & Hd & Td & Hn & Tn & He & Te & Hv).
  unfold tryLoad. rewrite Hd. simpl. rewrite Td, Hn. simpl.
  rewrite Tn, He. simpl. rewrite Te, Hv. reflexivity.
Qed.

Lemma get_property_truthy (d : JsValue) (k : string) :
  truthy d = true -> exists v, get_property d k = Normal v.
Proof.
  destruct d; simpl; intros H; try discriminate; eauto.
Qed.

Lemma loadFlowData_absent (item : StoreItem) (r : FetchResult) :
  (forall n e v, ~ PayloadPresent r n e v) ->
  flowData (loadFlowData item r) = Some (createPlaceholderFlow item).
Proof.
  intros Habs. unfold loadFlowData.
  destruct (tryLoad item r) as [fd|] eqn:Hload; [|reflexivity].
  simpl. f_equal. unfold tryLoad in Hload.
  destruct r as [|[|] [data|]]; try congruence.
  destruct (get_property data "data") as [d|] eqn:Hd; simpl in Hload; [|discriminate].
  destruct (truthy d) eqn:Td; [|congruence].
  destruct (get_property d "nodes") as [n|] eqn:Hn; simpl in Hload; [|discriminate].
  destruct (truthy n) eqn:Tn; [|congruence].
  destruct (get_property d "edges") as [e|] eqn:He; simpl in Hload; [|discriminate].
  destruct (truthy e) eqn:Te; [|congruence].
  destruct (get_property_truthy d "viewport" Td) as [v Hv].
  exfalso. apply (Habs n e v). exists data, d. repeat split; assumption.
Qed.

(** C2 (as the code has it). The preview shows the stored graph exactly when
    the response is OK and its body has truthy [data], [data.nodes] and
    [data.edges] (an empty array is truthy): then [nodes] and [edges] are
    those two values unchanged and [viewport] is [data.viewport], or the
    default viewport when that is missing. In every other case (the fetch
    fails, the response is not OK, the body does not parse, or one of the
    three is missing) it shows the placeholder. *)
Theorem C2_placeholder_exactly_without_payload (item : StoreItem) (r : FetchResult) :
  (forall n e v, PayloadPresent r n e v ->
     flowData (loadFlowData item r)
     = Some {| nodes := n; edges := e;
               viewport := if truthy v then v else defaultViewport |})
  /\ ((forall n e v, ~ PayloadPresent r n e v) ->
      flowData (loadFlowData item r) = Some (createPlaceholderFlow item)).
Proof.
  split.
  - intros n e v H. unfold loadFlowData.
    rewrite (tryLoad_present item r n e v H). reflexivity.
  - apply loadFlowData_absent.
Qed.

Lemma C2_placeholder_witness :
  flowData (loadFlowData flowA (Response true (Some smallGraphPayload)))
  = Some {| nodes := JArr [JObj [("id", JStr "n1")]];
            edges := JArr [JObj [("id", JStr "e1")]];
            viewport := if truthy storedViewport then storedViewport
                        else defaultViewport |}.
Proof.
  apply (proj1 (C2_placeholder_exactly_without_payload flowA
                  (Response true (Some smallGraphPayload)))).
  exists smallGraphPayload,
    (JObj [("nodes", JArr [JObj [("id", JStr "n1")]]);
           ("edges", JArr [JObj [("id", JStr "e1")]]);
           ("viewport", storedViewport)]).
  repeat split; reflexivity.
Defined.

(** A payload with a non-empty node list and a non-empty edge list is always
    shown as it is, so the placeholder is bypassed for it. *)
Lemma nonempty_lists_bypass_placeholder (data : JsValue) :
  spec_has_nonempty_lists data = true ->
  exists n e v, PayloadPresent (Response true (Some data)) n e v.
Proof.
  unfold spec_has_nonempty_lists. intros H.
  destruct (get_property data "data") as [d|] eqn:Hd; [|discriminate].
  destruct (get_property d "nodes") as [[| | | | |[|n0 ns]|]|] eqn:Hn; try discriminate.
  destruct (get_property d "edges") as [[| | | | |[|e0 es]|]|] eqn:He; try discriminate.
  assert (Td : truthy d = true).
  { destruct d; simpl in *; try discriminate; try reflexivity;
      inversion Hn. }
  destruct (get_property_truthy d "viewport" Td) as [v Hv].
  exists (JArr (n0 :: ns)), (JArr (e0 :: es)), v, data, d.
  repeat split; try assumption; reflexivity.
Qed.

(** ** Download: [sanitizeFilename] *)

Section SanitizeFacts.

Lemma is_space_not_plus (c : ascii) : is_space c = true -> is_plus c = false.
Proof.
  unfold is_space, is_plus. intros H.
  destruct (Nat.eqb_spec (nat_of_ascii c) 43) as [E|]; [|reflexivity].
  rewrite E in H. discriminate H.
Qed.

Lemma is_space_not_forbidden (c : ascii) : is_space c = true -> forbidden_char c = false.
Proof.
  unfold is_space, forbidden_char, is_paren, is_invalid, is_plus. intros H.
  repeat (apply orb_prop in H; destruct H as [H|H]);
    apply Nat.eqb_eq in H; rewrite H; reflexivity.
Qed.

Lemma remove_chars_clean (class : ascii -> bool) (l : list ascii) :
  Forall (fun c => class c = false) (remove_chars class l).
Proof.
  apply List.Forall_forall. intros c Hc. unfold remove_chars in Hc.
  apply filter_In in Hc. destruct Hc as [_ Hc].
  destruct (class c); [discriminate | reflexivity].
Qed.

Lemma remove_chars_Forall (P : ascii -> Prop) class (l : list ascii) :
  Forall P l -> Forall P (remove_chars class l).
Proof.
  intros H. apply List.Forall_forall. intros c Hc. unfold remove_chars in Hc.
  apply filter_In in Hc. destruct Hc as [Hc _].
  revert c Hc. apply List.Forall_forall. exact H.
Qed.

Lemma remove_chars_fixed class (l : list ascii) :
  Forall (fun c => class c = false) l -> remove_chars class l = l.
Proof.
  intros H. apply filter_fixed.
  eapply List.Forall_impl; [|exact H]. simpl. intros c ->. reflexivity.
Qed.

(** The scan emits characters it has read, and spaces. *)
Lemma replace_plus_Forall (P : ascii -> Prop) (l : list ascii) :
  P space -> Forall P l ->
  forall m, match m with Pending w => Forall P w | AfterPlus => True end ->
  Forall P (replace_plus m l).
Proof.
  intros Hsp. induction 1 as [|c l Hc Hl IH]; intros m Hm; simpl.
  - destruct m; [exact Hm | constructor].
  - destruct (is_plus c).
    + repeat constructor; try exact Hsp. apply IH. exact I.
    + destruct (is_space c); destruct m as [w|].
      * apply IH. apply Forall_app. split; [exact Hm | repeat constructor; exact Hc].
      * apply IH. exact I.
      * apply Forall_app. split; [exact Hm|]. constructor; [exact Hc|].
        apply IH. constructor.
      * constructor; [exact Hc|]. apply IH. constructor.
Qed.

Lemma replace_plus_no_plus (l : list ascii) :
  forall m, match m with
            | Pending w => Forall (fun c => is_space c = true) w
            | AfterPlus => True
            end ->
  Forall (fun c => is_plus c = false) (replace_plus m l).
Proof.
  induction l as [|c l IH]; intros m Hm; simpl.
  - destruct m; [|constructor].
    eapply List.Forall_impl; [|exact Hm]. apply is_space_not_plus.
  - destruct (is_plus c) eqn:Hp.
    + repeat constructor. apply IH. exact I.
    + destruct (is_space c) eqn:Hs; destruct m as [w|].
      * apply IH. apply Forall_app. split; [exact Hm | repeat constructor; exact Hs].
      * apply IH. exact I.
      * apply Forall_app. split.
        -- eapply List.Forall_impl; [|exact Hm]. apply is_space_not_plus.
        -- constructor; [exact Hp|]. apply IH. constructor.
      * constructor; [exact Hp|]. apply IH. constructor.
Qed.

Lemma replace_plus_fixed (l : list ascii) :
  Forall (fun c => is_plus c = false) l ->
  forall w, replace_plus (Pending w) l = (w ++ l)%list.
Proof.
  induction 1 as [|c l Hc Hl IH]; intros w; simpl.
  - rewrite app_nil_r. reflexivity.
  - rewrite Hc. destruct (is_space c).
    + rewrite IH, <- app_assoc. reflexivity.
    + rewrite IH. reflexivity.
Qed.

Lemma squeeze_run_Forall (P : ascii -> Prop) (w : list ascii) :
  P space -> Forall P w -> Forall P (squeeze_run w).
Proof.
  intros Hsp Hw. unfold squeeze_run.
  destruct (3 <=? length w)%nat; [repeat constructor; exact Hsp | exact Hw].
Qed.

Lemma squeeze_spaces_Forall (P : ascii -> Prop) (l : list ascii) :
  P space -> Forall P l -> forall w, Forall P w -> Forall P (squeeze_spaces w l).
Proof.
  intros Hsp. induction 1 as [|c l Hc Hl IH]; intros w Hw; simpl.
  - apply squeeze_run_Forall; assumption.
  - destruct (is_space c).
    + apply IH. apply Forall_app. split; [exact Hw | repeat constructor; exact Hc].
    + apply Forall_app. split; [apply squeeze_run_Forall; assumption|].
      constructor; [exact Hc|]. apply IH. constructor.
Qed.

(** A short run of white space before another character starts no triple. *)
Lemma no_space_triple_after_run (w : list ascii) (c : ascii) (l : list ascii) :
  (length w <= 2)%nat -> is_space c = false ->
  no_space_triple l = true -> no_space_triple (w ++ c :: l) = true.
Proof.
  intros Hlen Hc Hl.
  assert (Hcl : no_space_triple (c :: l) = true).
  { simpl. rewrite Hc, Hl. reflexivity. }
  destruct w as [|a [|b [|d w]]]; simpl in Hlen; try lia.
  - exact Hcl.
  - change ([a] ++ c :: l)%list with (a :: c :: l).
    change (no_space_triple (a :: c :: l))
      with (negb (is_space a && match l with
                                | d :: _ => is_space c && is_space d
                                | [] => false
                                end) && no_space_triple (c :: l)).
    rewrite Hcl, Hc. destruct l; rewrite ?andb_false_r; reflexivity.
  - change ([a; b] ++ c :: l)%list with (a :: b :: c :: l).
    change (no_space_triple (a :: b :: c :: l))
      with (negb (is_space a && (is_space b && is_space c))
            && (negb (is_space b && match l with
                                    | d :: _ => is_space c && is_space d
                                    | [] => false
                                    end) && no_space_triple (c :: l))).
    rewrite Hcl, Hc. destruct l; rewrite ?andb_false_r; reflexivity.
Qed.

Lemma squeeze_run_short (w : list ascii) : (length (squeeze_run w) <= 2)%nat.
Proof.
  unfold squeeze_run. destruct (Nat.leb_spec 3 (length w)); simpl; lia.
Qed.

Lemma no_space_triple_short (w : list ascii) :
  (length w <= 2)%nat -> no_space_triple w = true.
Proof.
  destruct w as [|a [|b [|d w]]]; simpl; intros H; try lia;
    rewrite ?andb_false_r; reflexivity.
Qed.

Lemma squeeze_spaces_no_triple (l : list ascii) :
  forall w, no_space_triple (squeeze_spaces w l) = true.
Proof.
  induction l as [|c l IH]; intros w; simpl.
  - apply no_space_triple_short, squeeze_run_short.
  - destruct (is_space c) eqn:Hc.
    + apply IH.
    + apply no_space_triple_after_run; [apply squeeze_run_short | exact Hc | apply IH].
Qed.

Lemma no_space_triple_tail (a : ascii) (l : list ascii) :
  no_space_triple (a :: l) = true -> no_space_triple l = true.
Proof. simpl. intros H. apply andb_prop in H. tauto. Qed.

Lemma no_space_triple_suffix (l1 l2 : list ascii) :
  no_space_triple (l1 ++ l2) = true -> no_space_triple l2 = true.
Proof.
  induction l1 as [|a l1 IH]; simpl app; intros H; [exact H|].
  apply IH. eapply no_space_triple_tail. exact H.
Qed.

(** A run of white space without a triple is shorter than three. *)
Lemma spaces_no_triple_short (w : list ascii) :
  Forall (fun c => is_space c = true) w -> no_space_triple w = true ->
  (length w <= 2)%nat.
Proof.
  intros Hw Ht. destruct w as [|a [|b [|d w]]]; simpl; try lia.
  inversion Hw as [|? ? Ha Hw1]; subst. inversion Hw1 as [|? ? Hb Hw2]; subst.
  inversion Hw2 as [|? ? Hd _]; subst.
  simpl in Ht. rewrite Ha, Hb, Hd in Ht. discriminate Ht.
Qed.

Lemma no_space_triple_run_prefix (w l : list ascii) :
  Forall (fun c => is_space c = true) w -> no_space_triple (w ++ l) = true ->
  (length w <= 2)%nat.
Proof.
  intros Hw Ht. destruct w as [|a [|b [|d w]]]; simpl; try lia.
  inversion Hw as [|? ? Ha Hw1]; subst. inversion Hw1 as [|? ? Hb Hw2]; subst.
  inversion Hw2 as [|? ? Hd _]; subst.
  simpl in Ht. rewrite Ha, Hb, Hd in Ht. discriminate Ht.
Qed.

Lemma squeeze_run_fixed (w : list ascii) :
  (length w <= 2)%nat -> squeeze_run w = w.
Proof.
  intros H. unfold squeeze_run.
  destruct (Nat.leb_spec 3 (length w)); [lia | reflexivity].
Qed.

Lemma squeeze_spaces_fixed (l : list ascii) :
  forall w, Forall (fun c => is_space c = true) w ->
            no_space_triple (w ++ l) = true ->
            squeeze_spaces w l = (w ++ l)%list.
Proof.
  induction l as [|c l IH]; intros w Hw Ht; simpl.
  - rewrite app_nil_r in *. apply squeeze_run_fixed.
    apply spaces_no_triple_short; assumption.
  - destruct (is_space c) eqn:Hc.
    + rewrite IH, <- app_assoc; [reflexivity | |].
      * apply Forall_app. split; [exact Hw | repeat constructor; exact Hc].
      * rewrite <- app_assoc. exact Ht.
    + rewrite squeeze_run_fixed by (eapply no_space_triple_run_prefix; eassumption).
      rewrite (IH []); [reflexivity | constructor |].
      simpl. eapply no_space_triple_tail, no_space_triple_suffix. exact Ht.
Qed.

End SanitizeFacts.

Section TrimFacts.

Lemma trim_start_suffix (l : list ascii) : exists w, l = (w ++ trim_start l)%list.
Proof.
  induction l as [|c l [w IH]]; simpl.
  - exists []. reflexivity.
  - destruct (is_space c).
    + exists (c :: w). simpl. rewrite <- IH. reflexivity.
    + exists []. reflexivity.
Qed.

Lemma trim_end_prefix (l : list ascii) : exists w, l = (trim_end l ++ w)%list.
Proof.
  induction l as [|c l [w IH]]; simpl.
  - exists []. reflexivity.
  - destruct (trim_end l) as [|d t] eqn:Ht.
    + destruct (is_space c).
      * exists (c :: l). reflexivity.
      * exists l. reflexivity.
    + exists w. simpl. rewrite IH at 1. reflexivity.
Qed.

Lemma trim_Forall (P : ascii -> Prop) (l : list ascii) :
  Forall P l -> Forall P (trim l).
Proof.
  intros H. unfold trim.
  destruct (trim_start_suffix l) as [w1 E1].
  destruct (trim_end_prefix (trim_start l)) as [w2 E2].
  rewrite E1, E2 in H.
  apply Forall_app in H. destruct H as [_ H].
  apply Forall_app in H. tauto.
Qed.

Lemma first_is_space_trim_start (l : list ascii) :
  first_is_space (trim_start l) = false.
Proof.
  induction l as [|c l IH]; simpl; [reflexivity|].
  destruct (is_space c) eqn:Hc; [exact IH | simpl; exact Hc].
Qed.

Lemma trim_start_fixed (l : list ascii) :
  first_is_space l = false -> trim_start l = l.
Proof.
  destruct l as [|c l]; simpl; [reflexivity|]. intros ->. reflexivity.
Qed.

Lemma last_is_space_trim_end (l : list ascii) :
  last_is_space (trim_end l) = false.
Proof.
  induction l as [|c l IH]; simpl; [reflexivity|].
  destruct (trim_end l) as [|d t] eqn:Ht.
  - destruct (is_space c) eqn:Hc; simpl; [reflexivity | exact Hc].
  - exact IH.
Qed.

Lemma trim_end_fixed (l : list ascii) :
  last_is_space l = false -> trim_end l = l.
Proof.
  induction l as [|c l IH]; [reflexivity|].
  intros H. simpl in *. destruct l as [|d l].
  - simpl. rewrite H. reflexivity.
  - rewrite (IH H). reflexivity.
Qed.

Lemma first_is_space_trim_end (l : list ascii) :
  first_is_space l = false -> first_is_space (trim_end l) = false.
Proof.
  destruct l as [|c l]; simpl; [reflexivity|]. intros Hc.
  destruct (trim_end l); [rewrite Hc|]; simpl; exact Hc.
Qed.

Lemma trim_clean (l : list ascii) :
  first_is_space (trim l) = false /\ last_is_space (trim l) = false.
Proof.
  unfold trim. split.
  - apply first_is_space_trim_end, first_is_space_trim_start.
  - apply last_is_space_trim_end.
Qed.

Lemma trim_fixed (l : list ascii) :
  first_is_space l = false -> last_is_space l = false -> trim l = l.
Proof.
  intros Hf Hl. unfold trim. rewrite (trim_start_fixed l Hf).
  apply trim_end_fixed, Hl.
Qed.

Lemma no_space_triple_prefix (l1 l2 : list ascii) :
  no_space_triple (l1 ++ l2) = true -> no_space_triple l1 = true.
Proof.
  induction l1 as [|a l1 IH]; [reflexivity|].
  change ((a :: l1) ++ l2)%list with (a :: (l1 ++ l2))%list.
  intros H. pose proof (no_space_triple_tail _ _ H) as Ht.
  simpl in H. apply andb_prop in H. destruct H as [H _].
  simpl. rewrite (IH Ht), andb_true_r.
  destruct l1 as [|b [|c l1]]; rewrite ?andb_false_r; try reflexivity.
  exact H.
Qed.

Lemma trim_no_triple (l : list ascii) :
  no_space_triple l = true -> no_space_triple (trim l) = true.
Proof.
  intros H. unfold trim.
  destruct (trim_start_suffix l) as [w1 E1].
  destruct (trim_end_prefix (trim_start l)) as [w2 E2].
  rewrite E1 in H. apply no_space_triple_suffix in H.
  rewrite E2 in H. apply no_space_triple_prefix in H. exact H.
Qed.

Lemma no_space_triple_spec (l : list ascii) :
  no_space_triple l = true ->
  forall l1 a b c l2, l = (l1 ++ a :: b :: c :: l2)%list ->
                      is_space a && is_space b && is_space c = false.
Proof.
  intros H l1 a b c l2 ->. apply no_space_triple_suffix in H.
  simpl in H. apply andb_prop in H. destruct H as [H _].
  destruct (is_space a), (is_space b), (is_space c); simpl in *; congruence.
Qed.

Lemma last_is_space_snoc (l : list ascii) (c : ascii) :
  last_is_space (l ++ [c]) = is_space c.
Proof.
  induction l as [|a l IH]; [reflexivity|].
  change ((a :: l) ++ [c])%list with (a :: (l ++ [c]))%list.
  simpl. destruct (l ++ [c])%list eqn:E; [|exact IH].
  destruct l; discriminate E.
Qed.

(** What the five steps leave. *)
Lemma sanitize_chars_clean (l : list ascii) :
  Forall (fun c => forbidden_char c = false) (sanitize_chars l)
  /\ no_space_triple (sanitize_chars l) = true
  /\ first_is_space (sanitize_chars l) = false
  /\ last_is_space (sanitize_chars l) = false.
Proof.
  unfold sanitize_chars. repeat split.
  - set (l2 := remove_chars is_invalid (remove_chars is_paren l)).
    assert (H2 : Forall (fun c => is_paren c = false /\ is_invalid c = false) l2).
    { apply Forall_and. split.
      - apply remove_chars_Forall, remove_chars_clean.
      - apply remove_chars_clean. }
    assert (H3 : Forall (fun c => (is_paren c = false /\ is_invalid c = false)
                                  /\ is_plus c = false)
                   (replace_plus (Pending []) l2)).
    { apply Forall_and. split.
      - apply replace_plus_Forall; [split; reflexivity | exact H2 | constructor].
      - apply replace_plus_no_plus. constructor. }
    apply trim_Forall.
    eapply List.Forall_impl;
      [| apply (squeeze_spaces_Forall _ _ (conj (conj eq_refl eq_refl) eq_refl) H3);
         constructor].
    simpl. intros c [[Hp Hi] Hplus]. unfold forbidden_char.
    rewrite Hp, Hi, Hplus. reflexivity.
  - apply trim_no_triple, squeeze_spaces_no_triple.
  - apply trim_clean.
  - apply trim_clean.
Qed.

Lemma sanitize_chars_fixed (l : list ascii) :
  Forall (fun c => forbidden_char c = false) l ->
  no_space_triple l = true ->
  first_is_space l = false -> last_is_space l = false ->
  sanitize_chars l = l.
Proof.
  intros Hf Ht Hfirst Hlast. unfold sanitize_chars.
  rewrite (remove_chars_fixed is_paren l).
  2:{ eapply List.Forall_impl; [|exact Hf]. simpl. unfold forbidden_char.
      intros c H. destruct (is_paren c); [discriminate | reflexivity]. }
  rewrite (remove_chars_fixed is_invalid l).
  2:{ eapply List.Forall_impl; [|exact Hf]. simpl. unfold forbidden_char.
      intros c H. destruct (is_invalid c), (is_paren c); try discriminate; reflexivity. }
  rewrite (replace_plus_fixed l).
  2:{ eapply List.Forall_impl; [|exact Hf]. simpl. unfold forbidden_char.
      intros c H. destruct (is_plus c), (is_invalid c), (is_paren c);
        try discriminate; reflexivity. }
  simpl. rewrite (squeeze_spaces_fixed l []); [| constructor | exact Ht].
  simpl. apply trim_fixed; assumption.
Qed.

End TrimFacts.

(** X1. A sanitized file name contains no parenthesis, none of the characters
    the second replacement removes, and no plus sign. *)
Theorem sanitizeFilename_no_forbidden_char (name : string) (c : ascii) :
  In c (list_ascii_of_string (sanitizeFilename name)) -> forbidden_char c = false.
Proof.
  unfold sanitizeFilename. rewrite list_ascii_of_string_of_list_ascii.
  destruct (sanitize_chars_clean (list_ascii_of_string name)) as [H _].
  revert c. apply List.Forall_forall. exact H.
Qed.

(** X2. A sanitized file name neither starts nor ends with white space, and
    nowhere has three white-space characters in a row. *)
Theorem sanitizeFilename_white_space (name : string) :
  let out := list_ascii_of_string (sanitizeFilename name) in
  (forall c rest, out = c :: rest -> is_space c = false)
  /\ (forall init c, out = (init ++ [c])%list -> is_space c = false)
  /\ (forall l1 a b c l2, out = (l1 ++ a :: b :: c :: l2)%list ->
                          is_space a && is_space b && is_space c = false).
Proof.
  unfold sanitizeFilename. rewrite list_ascii_of_string_of_list_ascii.
  destruct (sanitize_chars_clean (list_ascii_of_string name)) as (_ & Ht & Hf & Hl).
  simpl. repeat split.
  - intros c rest E. rewrite E in Hf. exact Hf.
  - intros init c E. rewrite E, last_is_space_snoc in Hl. exact Hl.
  - apply no_space_triple_spec, Ht.
Qed.

(** X3. Sanitizing is idempotent: a sanitized name is left as it is. *)
Theorem sanitizeFilename_idempotent (name : string) :
  sanitizeFilename (sanitizeFilename name) = sanitizeFilename name.
Proof.
  unfold sanitizeFilename. rewrite list_ascii_of_string_of_list_ascii.
  destruct (sanitize_chars_clean (list_ascii_of_string name)) as (Hc & Ht & Hf & Hl).
  rewrite sanitize_chars_fixed; [reflexivity | assumption ..].
Qed.

Lemma sanitizeFilename_no_forbidden_char_witness :
  forbidden_char (ascii_of_nat 50) = false.
Proof.
  apply (sanitizeFilename_no_forbidden_char "Chat (2) + RAG" (ascii_of_nat 50)).
  vm_compute. right. right. right. right. right. left. reflexivity.
Defined.

Lemma sanitizeFilename_white_space_witness :
  is_space (ascii_of_nat 67) = false.
Proof.
  apply (proj1 (sanitizeFilename_white_space " Chat (2) + RAG  ")
           (ascii_of_nat 67) (list_ascii_of_string "hat 2  RAG")).
  vm_compute. reflexivity.
Defined.

(** ** Paginator: pages *)

Section PageFacts.
Context {A : Type}.

Lemma firstn_plus (a b : nat) (l : list A) :
  firstn (a + b) l = (firstn a l ++ firstn b (skipn a l))%list.
Proof.
  revert l. induction a as [|a IH]; intros l; simpl.
  - reflexivity.
  - destruct l as [|x l]; simpl.
    + rewrite firstn_nil. reflexivity.
    + rewrite IH. reflexivity.
Qed.

Lemma firstn_cap (n : nat) (l : list A) :
  firstn (Nat.min n (length l)) l = firstn n l.
Proof.
  destruct (Nat.le_ge_cases n (length l)) as [H|H].
  - rewrite Nat.min_l by exact H. reflexivity.
  - rewrite Nat.min_r by exact H. rewrite !firstn_all2; [reflexivity | exact H | lia].
Qed.

(** A page from 1 on is the chunk of [perPage] items after those of the
    pages before it. *)
Lemma paginatedItems_chunk (l : list A) (page perPage : Z) :
  (1 <= page)%Z -> (0 < perPage)%Z ->
  paginatedItems l page perPage
  = firstn (Z.to_nat perPage) (skipn (Z.to_nat ((page - 1) * perPage)) l).
Proof.
  intros Hpage Hper. unfold paginatedItems, array_slice, relative_index.
  set (len := Z.of_nat (length l)).
  assert (Hfrom : (0 <= (page - 1) * perPage)%Z) by nia.
  assert (Hto : (0 <= page * perPage)%Z) by nia.
  destruct (Z.ltb_spec ((page - 1) * perPage) 0); [lia|].
  destruct (Z.ltb_spec (page * perPage) 0); [lia|].
  destruct (Z.le_gt_cases len ((page - 1) * perPage)) as [Hout|Hin].
  - rewrite (Z.min_r ((page - 1) * perPage) len) by lia.
    rewrite !skipn_all2 by (unfold len in *; lia).
    rewrite !firstn_nil. reflexivity.
  - rewrite (Z.min_l ((page - 1) * perPage) len) by lia.
    rewrite <- (firstn_cap (Z.to_nat perPage)).
    f_equal. rewrite length_skipn. unfold len in *. lia.
Qed.

Lemma totalPages_ceiling_bounds (l : list A) (p : Z) :
  (0 < p)%Z ->
  (p * (totalPages l p - 1) < Z.of_nat (length l) <= p * totalPages l p)%Z.
Proof.
  intros Hp. rewrite (totalPages_div l p Hp).
  pose proof (Z.div_mod (- Z.of_nat (length l)) p) as E.
  pose proof (Z.mod_pos_bound (- Z.of_nat (length l)) p Hp) as B.
  nia.
Qed.

Lemma pages_concat (l : list A) (perPage : Z) (k : nat) :
  (0 < perPage)%Z ->
  concat (List.map (fun i => paginatedItems l (Z.of_nat i + 1) perPage) (seq 0 k))
  = firstn (k * Z.to_nat perPage) l.
Proof.
  intros Hper. induction k as [|k IH].
  - reflexivity.
  - rewrite seq_S, List.map_app, concat_app, IH. simpl.
    rewrite app_nil_r, paginatedItems_chunk by lia.
    replace (Z.to_nat ((Z.of_nat k + 1 - 1) * perPage)) with (k * Z.to_nat perPage)%nat
      by nia.
    rewrite <- firstn_plus. f_equal. lia.
Qed.

End PageFacts.

(** X4. For a page size above zero, the pages 1 to [totalPages] hold all the
    items, each once and in order: put one after the other they give back the
    list. No page from 1 on holds more than [perPage] items. *)
Theorem pages_partition_items {A} (l : list A) (perPage : Z) :
  (0 < perPage)%Z ->
  concat (List.map (fun i => paginatedItems l (Z.of_nat i + 1) perPage)
                   (seq 0 (Z.to_nat (totalPages l perPage))))
  = l
  /\ forall page, (1 <= page)%Z ->
       (Z.of_nat (length (paginatedItems l page perPage)) <= perPage)%Z.
Proof.
  intros Hper. split.
  - rewrite pages_concat by exact Hper.
    apply firstn_all2.
    pose proof (totalPages_ceiling_bounds l perPage Hper). nia.
  - intros page Hpage. rewrite paginatedItems_chunk by assumption.
    rewrite length_firstn. lia.
Qed.

Lemma pages_partition_items_witness :
  concat (List.map (fun i => paginatedItems [flowA; flowB; orphan] (Z.of_nat i + 1) 2)
                   (seq 0 (Z.to_nat (totalPages [flowA; flowB; orphan] 2))))
  = [flowA; flowB; orphan].
Proof.
  assert (H : (0 < 2)%Z) by lia.
  exact (proj1 (pages_partition_items [flowA; flowB; orphan] 2 H)).
Defined.

(** X5. For a page size above zero, every page from 1 to [totalPages] shows at
    least one item, and every page after [totalPages] is empty. *)
Theorem page_in_range_is_nonempty {A} (l : list A) (page perPage : Z) :
  (0 < perPage)%Z ->
  ((1 <= page <= totalPages l perPage)%Z ->
   (1 <= Z.of_nat (length (paginatedItems l page perPage)))%Z)
  /\ ((totalPages l perPage < page)%Z -> (1 <= page)%Z ->
      paginatedItems l page perPage = []).
Proof.
  intros Hper. pose proof (totalPages_ceiling_bounds l perPage Hper) as B. split.
  - intros Hpage. rewrite paginatedItems_chunk by lia.
    rewrite length_firstn, length_skipn. nia.
  - intros Hbeyond Hpage. rewrite paginatedItems_chunk by lia.
    rewrite skipn_all2; [apply firstn_nil|]. nia.
Qed.

Lemma page_in_range_witness :
  (1 <= Z.of_nat (length (paginatedItems [flowA; flowB; orphan] 2 2)))%Z.
Proof.
  apply (proj1 (page_in_range_is_nonempty [flowA; flowB; orphan] 2 2 ltac:(lia))).
  vm_compute. split; discriminate.
Defined.

(** X6. With at least one page and the current page within 1 to [total], the
    First, Previous, Next and Last buttons keep it there, and none of them
    changes what [getFilteredItems] returns. *)
Theorem page_buttons_keep_range {host : JsHost} (total : Z) (st : ShowcaseState) :
  (1 <= currentPage st <= total)%Z ->
  ((1 <= currentPage (goFirst st) <= total)%Z
   /\ (1 <= currentPage (goPrevious st) <= total)%Z
   /\ (1 <= currentPage (goNext total st) <= total)%Z
   /\ (1 <= currentPage (goLast total st) <= total)%Z)
  /\ getFilteredItems (goFirst st) = getFilteredItems st
  /\ getFilteredItems (goPrevious st) = getFilteredItems st
  /\ getFilteredItems (goNext total st) = getFilteredItems st
  /\ getFilteredItems (goLast total st) = getFilteredItems st.
Proof.
  intros Hrange.
  assert (E : forall v, dispatch (SetCurrentPage v) st = setCurrentPage v st).
  { intros v. unfold dispatch, resetDepsChanged. simpl.
    rewrite !String.eqb_refl, Bool.eqb_reflx. reflexivity. }
  unfold goFirst, goPrevious, goNext, goLast. rewrite !E. simpl.
  repeat split; try reflexivity; lia.
Qed.

Lemma page_buttons_witness :
  (1 <= currentPage (goNext 5 onPage3) <= 5)%Z.
Proof.
  apply (page_buttons_keep_range (host := ascii_host) 5 onPage3).
  vm_compute. split; discriminate.
Defined.

(** ** Facets *)

Section FacetFacts.

Lemma set_add_In (s : list string) (x y : string) :
  In x (set_add s y) <-> In x s \/ x = y.
Proof.
  unfold set_add. destruct (array_includes s y) eqn:E.
  - apply array_includes_In in E. split; [tauto|]. intros [H| ->]; assumption.
  - rewrite in_app_iff. simpl. intuition.
Qed.

Lemma set_add_NoDup (s : list string) (y : string) :
  List.NoDup s -> List.NoDup (set_add s y).
Proof.
  intros H. unfold set_add. destruct (array_includes s y) eqn:E; [exact H|].
  assert (Hy : ~ In y s).
  { intros Hin. apply array_includes_In in Hin. congruence. }
  clear E. induction H as [|a s Ha Hs IH]; simpl.
  - constructor; [tauto | constructor].
  - constructor.
    + rewrite in_app_iff. simpl. intros [H|[H|[]]]; [tauto|]. subst. apply Hy. left. reflexivity.
    + apply IH. intros Hin. apply Hy. right. exact Hin.
Qed.

(** An item carries a well-formed tag with the non-empty name [n]. *)
Lemma matchesTags_single (n : string) (item : StoreItem) :
  matchesTags [n] item = true
  <-> exists ts tag, tags item = Some ts /\ In tag ts
                     /\ tag_entry_name tag = Some n /\ truthy_string n = true.
Proof.
  unfold matchesTags. split.
  - destruct (tags item) as [ts|]; [|discriminate]. intros H.
    apply existsb_exists in H. destruct H as [tag [Hin H]].
    destruct (tag_entry_name tag) as [m|] eqn:Hm; [|discriminate].
    apply andb_prop in H. destruct H as [Ht Hsel].
    apply array_includes_In in Hsel. destruct Hsel as [->|[]].
    exists ts, tag. auto.
  - intros (ts & tag & -> & Hin & Hm & Ht).
    apply existsb_exists. exists tag. split; [exact Hin|].
    rewrite Hm, Ht. simpl. unfold array_includes. simpl.
    rewrite String.eqb_refl. reflexivity.
Qed.

Lemma add_item_tags_In (s : list string) (item : StoreItem) (x : string) :
  In x (add_item_tags s item) <-> In x s \/ matchesTags [x] item = true.
Proof.
  rewrite matchesTags_single. unfold add_item_tags.
  destruct (tags item) as [ts|].
  2:{ split; [tauto|]. intros [H|(ts & tag & H & _)]; [exact H | discriminate H]. }
  transitivity (In x s \/ exists tag, In tag ts /\ tag_entry_name tag = Some x
                                      /\ truthy_string x = true).
  - revert s. induction ts as [|t ts IH]; intros s; simpl.
    + split; [tauto|]. intros [H|(tag & [] & _)]. exact H.
    + rewrite IH. destruct (tag_entry_name t) as [n|] eqn:Hn.
      * destruct (truthy_string n) eqn:Ht.
        -- rewrite set_add_In. split.
           ++ intros [[H| ->]|(tag & Hin & H)]; [tauto | | ].
              ** right. exists t. auto.
              ** right. exists tag. tauto.
           ++ intros [H|(tag & [->|Hin] & Hm & Hx)]; [tauto | | ].
              ** left. right. congruence.
              ** right. exists tag. tauto.
        -- split.
           ++ intros [H|(tag & Hin & H)]; [tauto|]. right. exists tag. tauto.
           ++ intros [H|(tag & [->|Hin] & Hm & Hx)]; [tauto | | ].
              ** congruence.
              ** right. exists tag. tauto.
      * split.
        -- intros [H|(tag & Hin & H)]; [tauto|]. right. exists tag. tauto.
        -- intros [H|(tag & [->|Hin] & Hm & Hx)]; [tauto | | ].
           ++ congruence.
           ++ right. exists tag. tauto.
  - split.
    + intros [H|(tag & H)]; [tauto|]. right. exists ts, tag. tauto.
    + intros [H|(ts' & tag & E & H)]; [tauto|]. right. exists tag.
      inversion E; subst. tauto.
Qed.

Lemma add_item_tags_NoDup (s : list string) (item : StoreItem) :
  List.NoDup s -> List.NoDup (add_item_tags s item).
Proof.
  unfold add_item_tags. destruct (tags item) as [ts|]; [|tauto].
  revert s. induction ts as [|t ts IH]; intros s Hs; simpl; [exact Hs|].
  apply IH. destruct (tag_entry_name t) as [n|]; [|exact Hs].
  destruct (truthy_string n); [apply set_add_NoDup|]; exact Hs.
Qed.

Lemma add_item_author_In (s : list string) (item : StoreItem) (x : string) :
  In x (add_item_author s item)
  <-> In x s \/ (author_username item = Some x /\ truthy_string x = true).
Proof.
  unfold add_item_author. destruct (author_username item) as [u|].
  - destruct (truthy_string u) eqn:Ht.
    + rewrite set_add_In. split.
      * intros [H| ->]; auto.
      * intros [H|[E _]]; [auto | right; congruence].
    + split; [tauto|]. intros [H|[E Hx]]; [exact H | congruence].
  - split; [tauto|]. intros [H|[E _]]; [exact H | discriminate E].
Qed.

Lemma add_item_author_NoDup (s : list string) (item : StoreItem) :
  List.NoDup s -> List.NoDup (add_item_author s item).
Proof.
  intros Hs. unfold add_item_author. destruct (author_username item) as [u|]; [|exact Hs].
  destruct (truthy_string u); [apply set_add_NoDup|]; exact Hs.
Qed.

(** What a loop over the items collects, for either facet. *)
Lemma collect_In (add : list string -> StoreItem -> list string)
    (carries : string -> StoreItem -> Prop) :
  (forall s item x, In x (add s item) <-> In x s \/ carries x item) ->
  forall items s x,
    In x (fold_left add items s)
    <-> In x s \/ exists item, In item items /\ carries x item.
Proof.
  intros Hadd. induction items as [|i items IH]; intros s x; simpl.
  - split; [tauto|]. intros [H|(item & [] & _)]. exact H.
  - rewrite IH, Hadd. split.
    + intros [[H|H]|(item & Hin & H)]; [tauto | | ].
      * right. exists i. tauto.
      * right. exists item. tauto.
    + intros [H|(item & [->|Hin] & H)]; [tauto | tauto | ].
      right. exists item. tauto.
Qed.

Lemma collect_NoDup (add : list string -> StoreItem -> list string) :
  (forall s item, List.NoDup s -> List.NoDup (add s item)) ->
  forall items s, List.NoDup s -> List.NoDup (fold_left add items s).
Proof.
  intros Hadd. induction items as [|i items IH]; intros s Hs; simpl; [exact Hs|].
  apply IH, Hadd, Hs.
Qed.

Lemma default_sort_In (l : list string) (x : string) :
  In x (default_sort l) <-> In x l.
Proof. apply array_sort_In. Qed.

Lemma default_sort_NoDup (l : list string) :
  List.NoDup l -> List.NoDup (default_sort l).
Proof.
  intros H. eapply Permutation_NoDup; [|exact H].
  apply Permutation_sym, array_sort_Permutation.
Qed.

Lemma default_sort_ascending (l : list string) :
  List.NoDup l -> Sorted (fun a b => String.compare a b = Lt) (default_sort l).
Proof.
  intros Hl. pose proof (default_sort_NoDup l Hl) as Hnd.
  pose proof (array_sort_Sorted compare_code_units l compare_code_units_total) as Hs.
  fold (default_sort l) in Hs.
  induction Hs as [|a t Ht IH Hhd]; [constructor|].
  inversion Hnd as [|? ? Ha Hnd']; subst.
  constructor; [apply IH, Hnd'|].
  destruct Hhd as [|b t Hab]; constructor.
  unfold in_order, compare_code_units in Hab.
  destruct (String.compare a b) eqn:E; [| reflexivity | lia].
  apply String.compare_eq_iff in E. subst. exfalso. apply Ha. left. reflexivity.
Qed.

End FacetFacts.

(** X7. [allTags] lists exactly the non-empty names of the well-formed tags
    of the catalog items, that is, the tags whose selection alone matches
    some item; it lists each once, in ascending order. *)
Theorem allTags_lists_matching_tags (st : ShowcaseState) :
  (forall n, In n (allTags st)
             <-> exists item, In item (allItems st) /\ matchesTags [n] item = true)
  /\ List.NoDup (allTags st)
  /\ Sorted (fun a b => String.compare a b = Lt) (allTags st).
Proof.
  unfold allTags, allItems. destruct (storeData st) as [sd|].
  - split; [|split].
    + intros n. rewrite default_sort_In.
      rewrite (collect_In add_item_tags (fun x item => matchesTags [x] item = true)
                 add_item_tags_In).
      simpl. tauto.
    + apply default_sort_NoDup, (collect_NoDup _ add_item_tags_NoDup). constructor.
    + apply default_sort_ascending, (collect_NoDup _ add_item_tags_NoDup). constructor.
  - split; [|split; constructor].
    intros n. simpl. split; [tauto|]. intros (item & [] & _).
Qed.

(** X8. [allAuthors] lists exactly the non-empty user names of the catalog
    items' authors, each once, in ascending order. *)
Theorem allAuthors_lists_usernames (st : ShowcaseState) :
  (forall n, In n (allAuthors st)
             <-> exists item, In item (allItems st)
                              /\ author_username item = Some n
                              /\ truthy_string n = true)
  /\ List.NoDup (allAuthors st)
  /\ Sorted (fun a b => String.compare a b = Lt) (allAuthors st).
Proof.
  unfold allAuthors, allItems. destruct (storeData st) as [sd|].
  - split; [|split].
    + intros n. rewrite default_sort_In.
      rewrite (collect_In add_item_author
                 (fun x item => author_username item = Some x /\ truthy_string x = true)
                 add_item_author_In).
      simpl. tauto.
    + apply default_sort_NoDup, (collect_NoDup _ add_item_author_NoDup). constructor.
    + apply default_sort_ascending, (collect_NoDup _ add_item_author_NoDup). constructor.
  - split; [|split; constructor].
    intros n. simpl. split; [tauto|]. intros (item & [] & _).
Qed.

(** ** FilterEngine: what is returned, in which order *)

Section ResultFacts.
Context {host : JsHost}.

Lemma array_filter_as_filter {A} (p : A -> Completion bool) (l l' : list A) :
  array_filter p l = Normal l' ->
  l' = List.filter (fun x => match p x with Normal true => true | _ => false end) l.
Proof.
  revert l'. induction l as [|x l IH]; simpl; intros l' H.
  - inversion H. reflexivity.
  - destruct (p x) as [b|]; simpl in H; [|discriminate].
    destruct (array_filter p l) as [rest|]; simpl in H; [|discriminate].
    inversion H; subst. rewrite (IH rest eq_refl). destruct b; reflexivity.
Qed.

Lemma filter_filter {A} (f g : A -> bool) (l : list A) :
  List.filter f (List.filter g l) = List.filter (fun x => g x && f x) l.
Proof.
  induction l as [|x l IH]; simpl; [reflexivity|].
  destruct (g x); simpl; [destruct (f x)|]; rewrite IH; reflexivity.
Qed.

Lemma filter_all {A} (l : list A) : List.filter (fun _ => true) l = l.
Proof. induction l as [|x l IH]; simpl; [|rewrite IH]; reflexivity. Qed.

(** The filter blocks keep a sub-list of the array they start from. *)
Lemma applyFilters_as_filter (st : ShowcaseState) (sd : StoreData) (r0 r : ItemsRef) :
  applyFilters st sd r0 = Normal r ->
  exists f, deref sd r = List.filter f (deref sd r0).
Proof.
  unfold applyFilters. intros H.
  set (r1 := if truthy_string (searchTerm st) then _ else r0) in H.
  assert (H1 : exists f, deref sd r1 = List.filter f (deref sd r0)).
  { unfold r1. destruct (truthy_string (searchTerm st)); simpl; eauto.
    exists (fun _ => true). symmetry. apply filter_all. }
  set (r2 := if (0 <? _)%Z then _ else r1) in H.
  assert (H2 : exists f, deref sd r2 = List.filter f (deref sd r0)).
  { destruct H1 as [f1 E1]. unfold r2. destruct (0 <? _)%Z; simpl; eauto.
    rewrite E1, filter_filter. eauto. }
  clearbody r1 r2. destruct H2 as [f2 E2].
  assert (H3 : exists r3 f, (if truthy_string (authorFilter st)
                             then l <-- array_filter (matchesAuthor (authorFilter st))
                                          (deref sd r2) ;;; Normal (OwnArray l)
                             else Normal r2) = Normal r3
                            /\ deref sd r3 = List.filter f (deref sd r0)).
  { destruct (truthy_string (authorFilter st)); simpl in *.
    - destruct (array_filter _ (deref sd r2)) as [l|] eqn:Hl; simpl in H; [|discriminate].
      apply array_filter_as_filter in Hl. exists (OwnArray l). eexists. split; [reflexivity|].
      simpl. rewrite Hl, E2, filter_filter. reflexivity.
    - exists r2, f2. split; [reflexivity | exact E2]. }
  destruct H3 as (r3 & f3 & E & E3). rewrite E in H. simpl in H.
  inversion H; subst r; clear H.
  destruct (showPrivateOnly st); simpl; eauto.
  rewrite E3, filter_filter. eauto.
Qed.

(** What [getFilteredItems] returns: the items of the tab that get through
    the filters, in catalog order, then sorted. *)
Lemma getFilteredItems_kept (st : ShowcaseState) (sd : StoreData) out sd' :
  storeData st = Some sd ->
  getFilteredItems st = Normal (out, sd') ->
  exists f,
    (forall x, In x (deref sd (selectTab st sd)) ->
               (f x = true <-> passesFilters st x))
    /\ out = sortList (sortBy st) (List.filter f (deref sd (selectTab st sd))).
Proof.
  intros Hsd Hrun.
  destruct (getFilteredItems_inv st sd out sd' Hsd Hrun) as [r [Hr ->]].
  destruct (applyFilters_as_filter st sd _ r Hr) as [f Hf].
  exists f. split; [|rewrite Hf; reflexivity].
  intros x Hx. pose proof (applyFilters_spec st sd _ r Hr x) as Hspec.
  rewrite Hf, filter_In in Hspec. tauto.
Qed.

Lemma sortList_Permutation (sort : string) (l : list StoreItem) :
  Permutation (sortList sort l) l.
Proof.
  unfold sortList. destruct (comparator sort);
    [apply array_sort_Permutation | apply Permutation_refl].
Qed.



(** Sorting by a key is stable: the items with one key value keep their order. *)
Lemma sort_by_key_stable (key : StoreItem -> Z) (k : Z) (l : list StoreItem) :
  List.filter (fun i => Z.eqb (key i) k) (array_sort (fun a b => key b - key a)%Z l)
  = List.filter (fun i => Z.eqb (key i) k) l.
Proof.
  induction l as [|x l IH]; [reflexivity|].
  change (array_sort (fun a b => key b - key a)%Z (x :: l))
    with (insert_sorted (fun a b => key b - key a)%Z x
            (array_sort (fun a b => key b - key a)%Z l)).
  transitivity (List.filter (fun i => Z.eqb (key i) k)
                  (x :: array_sort (fun a b => key b - key a)%Z l)).
  2:{ simpl. rewrite IH. reflexivity. }
  generalize (array_sort (fun a b => key b - key a)%Z l) as s. clear IH.
  induction s as [|y s IHs]; [reflexivity|].
  simpl insert_sorted. destruct (Z.leb_spec (key y - key x) 0) as [Hle|Hgt].
  - reflexivity.
  - simpl in *. rewrite IHs.
    destruct (Z.eqb_spec (key x) k) as [Hx|Hx], (Z.eqb_spec (key y) k) as [Hy|Hy];
      try reflexivity.
    lia.
Qed.

Lemma NoDup_map_filter {A B} (g : A -> B) (f : A -> bool) (l : list A) :
  List.NoDup (List.map g l) -> List.NoDup (List.map g (List.filter f l)).
Proof.
  induction l as [|x l IH]; simpl; intros H; [constructor|].
  inversion H as [|? ? Hx Hl]; subst.
  destruct (f x); simpl; [|apply IH, Hl].
  constructor; [|apply IH, Hl].
  intros Hin. apply Hx. apply in_map_iff in Hin. destruct Hin as [y [E Hy]].
  apply filter_In in Hy. apply in_map_iff. exists y. tauto.
Qed.

(** The collection of the active tab is a part of the catalog. *)
Lemma selectTab_NoDup (st : ShowcaseState) (sd : StoreData) :
  List.NoDup (List.map id (flows sd ++ components sd)) ->
  List.NoDup (List.map id (deref sd (selectTab st sd))).
Proof.
  intros H. unfold selectTab.
  assert (Hf : List.NoDup (List.map id (flows sd))).
  { rewrite List.map_app in H. eapply NoDup_app_remove_r. exact H. }
  assert (Hc : List.NoDup (List.map id (components sd))).
  { rewrite List.map_app in H. eapply NoDup_app_remove_l. exact H. }
  repeat match goal with |- context [if ?c then _ else _] => destruct c end; simpl;
    try assumption; [apply NoDup_map_filter; exact H | constructor].
Qed.

End ResultFacts.

(** X9. [getFilteredItems] returns exactly the items of the active tab that
    get through every active filter, each as often as the catalog holds it:
    its result is a rearrangement of the filtered tab collection. *)
Theorem getFilteredItems_returns_the_matches {host : JsHost}
    (st : ShowcaseState) (sd : StoreData) out sd' :
  storeData st = Some sd ->
  getFilteredItems st = Normal (out, sd') ->
  exists f,
    (forall x, In x (deref sd (selectTab st sd)) ->
               (f x = true <-> passesFilters st x))
    /\ Permutation out (List.filter f (deref sd (selectTab st sd)))
    /\ forall x, In x out <-> In x (deref sd (selectTab st sd)) /\ passesFilters st x.
Proof.
  intros Hsd Hrun.
  destruct (getFilteredItems_kept st sd out sd' Hsd Hrun) as (f & Hf & ->).
  exists f. split; [exact Hf|]. split; [apply sortList_Permutation|].
  intros x. rewrite sortList_In, filter_In. split.
  - intros [Hin Hx]. split; [exact Hin|]. apply Hf; assumption.
  - intros [Hin Hx]. split; [exact Hin|]. apply Hf; assumption.
Qed.


(** X11. The sort is stable under the keys "popular", "downloads" and
    "likes": the items that share one key value come out in the order in which
    the filtered tab collection holds them. *)
Theorem equal_keys_keep_catalog_order {host : JsHost}
    (st : ShowcaseState) (sd : StoreData) out sd' :
  storeData st = Some sd ->
  getFilteredItems st = Normal (out, sd') ->
  exists f,
    (forall x, In x (deref sd (selectTab st sd)) ->
               (f x = true <-> passesFilters st x))
    /\ (sortBy st = "popular" -> forall k,
          List.filter (fun i => Z.eqb (likes (stats i) + downloads (stats i)) k) out
          = List.filter (fun i => Z.eqb (likes (stats i) + downloads (stats i)) k)
                        (List.filter f (deref sd (selectTab st sd))))
    /\ (sortBy st = "downloads" -> forall k,
          List.filter (fun i => Z.eqb (downloads (stats i)) k) out
          = List.filter (fun i => Z.eqb (downloads (stats i)) k)
                        (List.filter f (deref sd (selectTab st sd))))
    /\ (sortBy st = "likes" -> forall k,
          List.filter (fun i => Z.eqb (likes (stats i)) k) out
          = List.filter (fun i => Z.eqb (likes (stats i)) k)
                        (List.filter f (deref sd (selectTab st sd)))).
Proof.
  intros Hsd Hrun.
  destruct (getFilteredItems_kept st sd out sd' Hsd Hrun) as (f & Hf & ->).
  exists f. split; [exact Hf|].
  repeat split; intros Hsort k; unfold sortList; rewrite Hsort; simpl.
  - apply (sort_by_key_stable (fun i => likes (stats i) + downloads (stats i))%Z).
  - apply (sort_by_key_stable (fun i => downloads (stats i))).
  - apply (sort_by_key_stable (fun i => likes (stats i))).
Qed.

(** X12. If the ids of the catalog items are pairwise different, so are the
    ids of the items [getFilteredItems] returns (they serve as list keys). *)
Theorem result_ids_are_distinct {host : JsHost}
    (st : ShowcaseState) out sd' :
  List.NoDup (List.map id (allItems st)) ->
  getFilteredItems st = Normal (out, sd') ->
  List.NoDup (List.map id out).
Proof.
  intros Hnd Hrun. unfold allItems in Hnd.
  destruct (storeData st) as [sd|] eqn:Hsd.
  - destruct (getFilteredItems_kept st sd out sd' Hsd Hrun) as (f & _ & ->).
    eapply Permutation_NoDup.
    + apply Permutation_map, Permutation_sym, sortList_Permutation.
    + apply NoDup_map_filter, selectTab_NoDup, Hnd.
  - unfold getFilteredItems in Hrun. rewrite Hsd in Hrun. inversion Hrun. constructor.
Qed.

Lemma getFilteredItems_returns_the_matches_witness :
  exists f, Permutation [flowA] (List.filter f [flowA; flowB; orphan]).
Proof.
  destruct (getFilteredItems_returns_the_matches (host := ascii_host) nlpSelected
              (sampleStore [flowA; flowB] [orphan]) [flowA]
              (Some (sampleStore [flowA; flowB] [orphan])) eq_refl eq_refl)
    as (f & _ & Hperm & _).
  exists f. exact Hperm.
Defined.


Lemma equal_keys_keep_catalog_order_witness :
  exists f, List.filter (fun i => Z.eqb (likes (stats i)) 3) [flowB; flowA]
            = List.filter (fun i => Z.eqb (likes (stats i)) 3)
                          (List.filter f [flowA; flowB]).
Proof.
  destruct (equal_keys_keep_catalog_order (host := ascii_host) flowsByLikes
              (sampleStore [flowA; flowB] []) [flowB; flowA]
              (Some (sampleStore [flowB; flowA] [])) eq_refl eq_refl)
    as (f & _ & _ & _ & Hlikes).
  exists f. exact (Hlikes eq_refl 3%Z).
Defined.

Lemma result_ids_are_distinct_witness :
  List.NoDup (List.map id [flowB; flowA]).
Proof.
  apply (result_ids_are_distinct (host := ascii_host) flowsByLikes [flowB; flowA]
           (Some (sampleStore [flowB; flowA] []))).
  - vm_compute. repeat constructor; simpl; intuition discriminate.
  - vm_compute. reflexivity.
Defined.

(** ** FilterEngine: the store, the favorites tab and throwing *)

Section EffectFacts.
Context {host : JsHost}.

Lemma applyFilters_own_when_filtering (st : ShowcaseState) (sd : StoreData)
    (r0 r : ItemsRef) :
  applyFilters st sd r0 = Normal r ->
  (exists l, r0 = OwnArray l)
  \/ truthy_string (searchTerm st) = true
  \/ selectedTags st <> []
  \/ truthy_string (authorFilter st) = true
  \/ showPrivateOnly st = true ->
  exists l, r = OwnArray l.
Proof.
  unfold applyFilters. intros H Hc.
  destruct (truthy_string (searchTerm st)) eqn:Hs;
    destruct (0 <? Z.of_nat (length (selectedTags st)))%Z eqn:Ht;
    destruct (truthy_string (authorFilter st)) eqn:Ha; simpl in H;
    try (destruct (array_filter _ _) as [l|]; simpl in H; [|discriminate]);
    destruct (showPrivateOnly st) eqn:Hp; inversion H; subst; eauto.
  destruct Hc as [Hc|[Hc|[Hc|[Hc|Hc]]]]; try congruence; try exact Hc.
  apply nonempty_length in Hc. congruence.
Qed.

Lemma selectTab_own (st : ShowcaseState) (sd : StoreData) :
  activeTab st <> "flows" -> activeTab st <> "components" ->
  exists l, selectTab st sd = OwnArray l.
Proof.
  intros Hf Hc. unfold selectTab.
  destruct (String.eqb_spec (activeTab st) "all"); [eauto|].
  destruct (String.eqb_spec (activeTab st) "flows"); [congruence|].
  destruct (String.eqb_spec (activeTab st) "components"); [congruence|].
  destruct (String.eqb (activeTab st) "favorites"); eauto.
Qed.

Lemma array_filter_throws {A} (p : A -> Completion bool) (l : list A) :
  (exists e, array_filter p l = Throw e)
  <-> exists x, In x l /\ exists e, p x = Throw e.
Proof.
  induction l as [|x l IH]; simpl.
  - split; [intros [e H]; discriminate H | intros (x & [] & _)].
  - destruct (p x) as [b|e0] eqn:Hx; simpl.
    + destruct (array_filter p l) as [rest|e1]; simpl.
      * split; [intros [e H]; discriminate H|].
        intros (y & [->|Hy] & e & He); [congruence|].
        destruct (proj2 IH) as [e' He']; [eauto | discriminate He'].
      * split; [|eauto]. intros _.
        destruct (proj1 IH) as (y & Hy & He); eauto.
    + split; eauto.
Qed.

Lemma matchesAuthor_throws (filter : string) (item : StoreItem) :
  (exists e, matchesAuthor filter item = Throw e) <-> author_username item = None.
Proof.
  unfold matchesAuthor, author_username.
  destruct (author item) as [a|]; [destruct (username a)|]; split; eauto;
    try discriminate; intros [e H]; discriminate H.
Qed.

Lemma matchesAuthor_throws_TypeError (filter : string) (item : StoreItem) e :
  matchesAuthor filter item = Throw e -> e = TypeError.
Proof.
  unfold matchesAuthor.
  destruct (author item) as [a|]; [destruct (username a)|]; congruence.
Qed.

Lemma array_filter_throws_same {A} (p : A -> Completion bool) (l : list A) e :
  array_filter p l = Throw e -> exists x, In x l /\ p x = Throw e.
Proof.
  induction l as [|x l IH]; simpl; [discriminate|].
  destruct (p x) as [b|e0] eqn:Hx; simpl.
  - destruct (array_filter p l) as [rest|e1]; simpl; [discriminate|].
    intros H. inversion H; subst. destruct (IH eq_refl) as (y & Hy & He). eauto.
  - intros H. inversion H; subst. eauto.
Qed.

(** The filter blocks throw exactly when the author filter is active and meets,
    among the items the search and tag filters let through, one without a
    user name. *)
Lemma applyFilters_throws (st : ShowcaseState) (sd : StoreData) (r0 : ItemsRef) :
  (exists e, applyFilters st sd r0 = Throw e)
  <-> truthy_string (authorFilter st) = true
      /\ exists item,
           In item (deref sd r0)
           /\ (truthy_string (searchTerm st) = true ->
               matchesSearch (toLowerCase (searchTerm st)) item = true)
           /\ (selectedTags st <> [] -> matchesTags (selectedTags st) item = true)
           /\ author_username item = None.
Proof.
  unfold applyFilters.
  set (r1 := if truthy_string (searchTerm st) then _ else r0).
  set (r2 := if (0 <? _)%Z then _ else r1).
  assert (H2 : forall x, In x (deref sd r2)
               <-> In x (deref sd r0)
                   /\ (truthy_string (searchTerm st) = true ->
                       matchesSearch (toLowerCase (searchTerm st)) x = true)
                   /\ (selectedTags st <> [] ->
                       matchesTags (selectedTags st) x = true)).
  { intros x.
    assert (H1 : In x (deref sd r1) <-> In x (deref sd r0)
             /\ (truthy_string (searchTerm st) = true ->
                 matchesSearch (toLowerCase (searchTerm st)) x = true)).
    { unfold r1. destruct (truthy_string (searchTerm st)); simpl.
      - rewrite filter_In. intuition.
      - intuition discriminate. }
    unfold r2. destruct (0 <? Z.of_nat (length (selectedTags st)))%Z eqn:Hlen; simpl.
    - apply nonempty_length in Hlen. rewrite filter_In, H1. intuition.
    - rewrite H1. split; [|tauto]. intros [Hin Hs]. repeat split; try assumption.
      intros Hne. apply nonempty_length in Hne. congruence. }
  clearbody r1 r2.
  destruct (truthy_string (authorFilter st)) eqn:Ha; simpl.
  - destruct (array_filter (matchesAuthor (authorFilter st)) (deref sd r2))
      as [l|e0] eqn:Hl; simpl.
    + split; [intros [e H]; discriminate H|].
      intros (_ & item & Hin & Hs & Ht & Hu). exfalso.
      destruct (proj2 (array_filter_throws (matchesAuthor (authorFilter st))
                         (deref sd r2))) as [e He].
      * exists item. split; [apply H2; tauto|]. apply matchesAuthor_throws, Hu.
      * congruence.
    + split; [|eauto]. intros _. split; [reflexivity|].
      destruct (proj1 (array_filter_throws (matchesAuthor (authorFilter st))
                         (deref sd r2))) as (item & Hin & He); [eauto|].
      exists item. apply H2 in Hin. apply matchesAuthor_throws in He. tauto.
  - split; [intros [e H]; discriminate H | intros [H _]; discriminate H].
Qed.

Lemma applyFilters_throws_TypeError (st : ShowcaseState) (sd : StoreData)
    (r0 : ItemsRef) e :
  applyFilters st sd r0 = Throw e -> e = TypeError.
Proof.
  unfold applyFilters.
  set (r1 := if truthy_string (searchTerm st) then _ else r0).
  set (r2 := if (0 <? _)%Z then _ else r1). clearbody r1 r2.
  destruct (truthy_string (authorFilter st)); simpl; [|discriminate].
  destruct (array_filter _ (deref sd r2)) as [l|e0] eqn:Hl; simpl; [discriminate|].
  intros H. inversion H; subst.
  destruct (array_filter_throws_same _ _ _ Hl) as (x & _ & Hx).
  eapply matchesAuthor_throws_TypeError. exact Hx.
Qed.

Lemma getFilteredItems_throw_inv (st : ShowcaseState) e :
  getFilteredItems st = Throw e ->
  exists sd, storeData st = Some sd /\ applyFilters st sd (selectTab st sd) = Throw e.
Proof.
  unfold getFilteredItems. destruct (storeData st) as [sd|]; [|discriminate].
  destruct (applyFilters st sd (selectTab st sd)) as [r|e0] eqn:Hr; simpl.
  - destruct (comparator (sortBy st)) as [cmp|]; [destruct (sort_in_place cmp sd r)|];
      discriminate.
  - intros H. inversion H; subst. exists sd. split; [reflexivity | exact Hr].
Qed.

Lemma has_In (l : list string) (x : string) :
  has (list_to_set l) x = true <-> In x l.
Proof.
  unfold has. rewrite bool_decide_eq_true, elem_of_list_to_set.
  apply list_elem_of_In.
Qed.

End EffectFacts.

(** X13. [getFilteredItems] leaves [storeData] as it is whenever the active
    tab is neither "flows" nor "components", or a search term, a tag
    selection, an author filter or the private-only flag is active. *)
Theorem store_untouched_unless_bare_tab {host : JsHost}
    (st : ShowcaseState) out sd' :
  getFilteredItems st = Normal (out, sd') ->
  (activeTab st <> "flows" /\ activeTab st <> "components")
  \/ truthy_string (searchTerm st) = true
  \/ selectedTags st <> []
  \/ truthy_string (authorFilter st) = true
  \/ showPrivateOnly st = true ->
  sd' = storeData st.
Proof.
  intros Hrun Hc. unfold getFilteredItems in Hrun.
  destruct (storeData st) as [sd|]; [|congruence].
  destruct (applyFilters st sd (selectTab st sd)) as [r|] eqn:Hr; simpl in Hrun;
    [|discriminate].
  assert (Hown : exists l, r = OwnArray l).
  { apply (applyFilters_own_when_filtering st sd _ r Hr).
    destruct Hc as [[Hf Hcomp]|Hc]; [left; apply selectTab_own; assumption | tauto]. }
  destruct Hown as [l ->].
  destruct (comparator (sortBy st)); simpl in Hrun; congruence.
Qed.

Lemma store_untouched_witness :
  Some (sampleStore [flowA; flowB] [orphan]) = storeData nlpSelected.
Proof.
  apply (store_untouched_unless_bare_tab (host := ascii_host) nlpSelected [flowA]
           (Some (sampleStore [flowA; flowB] [orphan]))).
  - vm_compute. reflexivity.
  - left. split; vm_compute; discriminate.
Defined.

(** X14. Once the favorites query has been refetched, the "favorites" tab
    returns exactly the catalog items whose id is in the delivered list and
    that get through the active filters. *)
Theorem favorites_tab_follows_refetch {host : JsHost}
    (st : ShowcaseState) (sd : StoreData) (ids : list string) out sd' :
  storeData st = Some sd ->
  activeTab st = "favorites" ->
  getFilteredItems (favoritesRefetched st ids) = Normal (out, sd') ->
  forall item,
    In item out
    <-> In item (flows sd ++ components sd) /\ In (id item) ids
        /\ passesFilters st item.
Proof.
  intros Hsd Htab Hrun item.
  destruct (getFilteredItems_inv (favoritesRefetched st ids) sd out sd' Hsd Hrun)
    as [r [Hr ->]].
  rewrite sortList_In, (applyFilters_spec _ sd _ r Hr item).
  change (passesFilters (favoritesRefetched st ids) item) with (passesFilters st item).
  unfold selectTab. simpl. rewrite Htab. simpl.
  rewrite filter_In. unfold favorites. simpl. rewrite has_In. tauto.
Qed.

(** The sample catalog on the "favorites" tab. *)
Lemma favorites_tab_follows_refetch_witness :
  In flowB [flowB]
  <-> In flowB (flows (sampleStore [flowA; flowB] [orphan])
                ++ components (sampleStore [flowA; flowB] [orphan]))
      /\ In (id flowB) ["f2"]
      /\ passesFilters (host := ascii_host) (setActiveTab "favorites" noFavorites) flowB.
Proof.
  apply (favorites_tab_follows_refetch (host := ascii_host)
           (setActiveTab "favorites" noFavorites)
           (sampleStore [flowA; flowB] [orphan]) ["f2"] [flowB]
           (Some (sampleStore [flowA; flowB] [orphan]))).
  - reflexivity.
  - reflexivity.
  - vm_compute. reflexivity.
Defined.

(** X15. [getFilteredItems] throws exactly when the author filter is active
    and some item of the active tab that gets through the search and tag
    filters has no user name; what it throws is then a TypeError. With an
    empty author filter it always returns. *)
Theorem getFilteredItems_throws_iff {host : JsHost} (st : ShowcaseState) :
  ((exists e, getFilteredItems st = Throw e)
   <-> exists sd item,
         storeData st = Some sd
         /\ truthy_string (authorFilter st) = true
         /\ In item (deref sd (selectTab st sd))
         /\ (truthy_string (searchTerm st) = true ->
             matchesSearch (toLowerCase (searchTerm st)) item = true)
         /\ (selectedTags st <> [] -> matchesTags (selectedTags st) item = true)
         /\ author_username item = None)
  /\ (forall e, getFilteredItems st = Throw e -> e = TypeError).
Proof.
  split; [split|].
  - intros [e H]. destruct (getFilteredItems_throw_inv st e H) as (sd & Hsd & Hthrow).
    destruct (proj1 (applyFilters_throws st sd (selectTab st sd))) as (Ha & item & Hi);
      [eauto|].
    exists sd, item. tauto.
  - intros (sd & item & Hsd & Ha & Hi).
    destruct (proj2 (applyFilters_throws st sd (selectTab st sd))) as [e He];
      [split; [exact Ha | exists item; exact Hi]|].
    exists e. unfold getFilteredItems. rewrite Hsd, He. reflexivity.
  - intros e H. destruct (getFilteredItems_throw_inv st e H) as (sd & _ & Hthrow).
    eapply applyFilters_throws_TypeError. exact Hthrow.
Qed.

Lemma getFilteredItems_throws_witness :
  exists e, getFilteredItems (host := ascii_host) authorAl = Throw e.
Proof.
  apply (proj2 (proj1 (getFilteredItems_throws_iff (host := ascii_host) authorAl))).
  exists (sampleStore [flowA; flowB] [orphan]), orphan.
  repeat split; try reflexivity.
  - simpl. right. right. left. reflexivity.
  - intros H. exfalso. apply H. reflexivity.
Defined.

(** ** "Clear all filters" *)

Section ClearFacts.
Context {host : JsHost}.

(** Whether or not a setter resets the page, the other state is the setter's. *)
Lemma dispatch_fields (a : Action) (st : ShowcaseState) :
  storeData (dispatch a st) = storeData (applySetter a st)
  /\ searchTerm (dispatch a st) = searchTerm (applySetter a st)
  /\ selectedTags (dispatch a st) = selectedTags (applySetter a st)
  /\ authorFilter (dispatch a st) = authorFilter (applySetter a st)
  /\ showPrivateOnly (dispatch a st) = showPrivateOnly (applySetter a st)
  /\ activeTab (dispatch a st) = activeTab (applySetter a st)
  /\ sortBy (dispatch a st) = sortBy (applySetter a st)
  /\ favoriteItemIds (dispatch a st) = favoriteItemIds (applySetter a st).
Proof.
  unfold dispatch. destruct (resetDepsChanged a st (applySetter a st));
    repeat split; reflexivity.
Qed.

Lemma dispatch_page_stays_1 (a : Action) (st : ShowcaseState) :
  match a with SetCurrentPage _ => False | _ => True end ->
  currentPage st = 1%Z -> currentPage (dispatch a st) = 1%Z.
Proof.
  intros Ha Hp. unfold dispatch.
  destruct (resetDepsChanged a st (applySetter a st)); [reflexivity|].
  destruct a; simpl; try exact Hp. destruct Ha.
Qed.

Lemma clearAllFilters_state (st : ShowcaseState) :
  searchTerm (clearAllFilters st) = ""
  /\ selectedTags (clearAllFilters st) = []
  /\ authorFilter (clearAllFilters st) = ""
  /\ showPrivateOnly (clearAllFilters st) = false
  /\ currentPage (clearAllFilters st) = 1%Z
  /\ storeData (clearAllFilters st) = storeData st
  /\ activeTab (clearAllFilters st) = activeTab st
  /\ sortBy (clearAllFilters st) = sortBy st
  /\ favoriteItemIds (clearAllFilters st) = favoriteItemIds st.
Proof.
  unfold clearAllFilters.
  remember (dispatch (SetSearchTerm "") st) as s1 eqn:E1.
  remember (dispatch (SetSelectedTags []) s1) as s2 eqn:E2.
  remember (dispatch (SetAuthorFilter "") s2) as s3 eqn:E3.
  remember (dispatch (SetShowPrivateOnly false) s3) as s4 eqn:E4.
  pose proof (dispatch_fields (SetSearchTerm "") st) as F1.
  pose proof (dispatch_fields (SetSelectedTags []) s1) as F2.
  pose proof (dispatch_fields (SetAuthorFilter "") s2) as F3.
  pose proof (dispatch_fields (SetShowPrivateOnly false) s3) as F4.
  rewrite <- E1 in F1. rewrite <- E2 in F2. rewrite <- E3 in F3. rewrite <- E4 in F4.
  simpl in F1, F2, F3, F4.
  assert (P2 : currentPage s2 = 1%Z).
  { rewrite E2. unfold dispatch, resetDepsChanged. simpl.
    rewrite Bool.orb_true_r. reflexivity. }
  assert (P3 : currentPage s3 = 1%Z)
    by (rewrite E3; apply dispatch_page_stays_1; [exact I | exact P2]).
  assert (P4 : currentPage s4 = 1%Z)
    by (rewrite E4; apply dispatch_page_stays_1; [exact I | exact P3]).
  clear E1 E2 E3 E4.
  destruct F1 as (A1 & B1 & C1 & D1 & E1 & G1 & H1 & I1).
  destruct F2 as (A2 & B2 & C2 & D2 & E2 & G2 & H2 & I2).
  destruct F3 as (A3 & B3 & C3 & D3 & E3 & G3 & H3 & I3).
  destruct F4 as (A4 & B4 & C4 & D4 & E4 & G4 & H4 & I4).
  repeat split; congruence.
Qed.

End ClearFacts.

(** X16. After "Clear all filters" the page is 1 and, with a snapshot loaded,
    [getFilteredItems] returns (it cannot throw) a rearrangement of the whole
    collection of the active tab. *)
Theorem clearAllFilters_shows_whole_tab {host : JsHost}
    (st : ShowcaseState) (sd : StoreData) :
  storeData st = Some sd ->
  currentPage (clearAllFilters st) = 1%Z
  /\ exists out sd',
       getFilteredItems (clearAllFilters st) = Normal (out, sd')
       /\ Permutation out (deref sd (selectTab st sd)).
Proof.
  intros Hsd.
  destruct (clearAllFilters_state st) as (Hs & Ht & Ha & Hp & Hpage & Hstore & Htab & Hsort & Hfav).
  split; [exact Hpage|].
  set (st' := clearAllFilters st) in *.
  assert (Hsel : selectTab st' sd = selectTab st sd).
  { unfold selectTab, favorites. rewrite Htab, Hfav. reflexivity. }
  assert (Hall : Forall (passesFilters st') (deref sd (selectTab st' sd))).
  { apply List.Forall_forall. intros x _. unfold passesFilters.
    rewrite Hs, Ht, Ha, Hp. simpl. repeat split; intros H; congruence. }
  destruct (applyFilters_fixed st' sd _ Hall) as [r [Hr Hd]].
  assert (Hsd' : storeData st' = Some sd) by congruence.
  destruct (getFilteredItems_intro st' sd r Hsd' Hr) as [sd' Hrun].
  exists (sortList (sortBy st') (deref sd r)), sd'. split; [exact Hrun|].
  rewrite Hd, Hsel. apply sortList_Permutation.
Qed.

Lemma clearAllFilters_witness :
  currentPage (clearAllFilters (setCurrentPage 3 authorAl)) = 1%Z
  /\ exists out sd',
       getFilteredItems (host := ascii_host) (clearAllFilters (setCurrentPage 3 authorAl))
       = Normal (out, sd')
       /\ Permutation out
            (deref (sampleStore [flowA; flowB] [orphan])
               (selectTab (setCurrentPage 3 authorAl)
                  (sampleStore [flowA; flowB] [orphan]))).
Proof.
  apply (clearAllFilters_shows_whole_tab (host := ascii_host)
           (setCurrentPage 3 authorAl) (sampleStore [flowA; flowB] [orphan])).
  reflexivity.
Defined.

(** ** In-flight sets *)

Lemma add_then_remove (s : gset string) (x : string) :
  x ∉ s -> (s ∪ {[ x ]}) ∖ {[ x ]} = s.
Proof.
  intros H. apply set_eq. intros y.
  rewrite elem_of_difference, elem_of_union, elem_of_singleton. split.
  - intros [[Hy|Hy] Hn]; [exact Hy | contradiction].
  - intros Hy. split; [left; exact Hy | intros ->; contradiction].
Qed.

Lemma has_after_add (s : gset string) (x : string) : has (s ∪ {[ x ]}) x = true.
Proof.
  unfold has. apply bool_decide_eq_true, elem_of_union. right.
  apply elem_of_singleton. reflexivity.
Qed.

(** X17. A grab of an item not yet being grabbed marks it as being grabbed;
    while it is, a second grab of the same item sends nothing; and when the
    request ends, either way, the set of items being grabbed is as before. *)
Theorem grab_in_flight_round_trip (st : ShowcaseState) (item : StoreItem)
    (o : GrabOutcome) :
  has (grabbingItems st) (id item) = false ->
  let st1 := fst (grabFlow_start st item) in
  has (grabbingItems st1) (id item) = true
  /\ grabFlow_start st1 item = (st1, None)
  /\ grabbingItems (grabFlow_settle st1 item o) = grabbingItems st.
Proof.
  intros Hfree. unfold grabFlow_start. rewrite Hfree. simpl.
  assert (Hnot : id item ∉ grabbingItems st).
  { unfold has in Hfree. apply bool_decide_eq_false in Hfree. exact Hfree. }
  pose proof (has_after_add (grabbingItems st) (id item)) as Hin.
  split; [exact Hin|]. split.
  - rewrite Hin. reflexivity.
  - unfold grabFlow_settle. destruct o; simpl; apply add_then_remove, Hnot.
Qed.

Lemma grab_in_flight_witness :
  has (grabbingItems (fst (grabFlow_start initialState flowA))) (id flowA) = true
  /\ grabFlow_start (fst (grabFlow_start initialState flowA)) flowA
     = (fst (grabFlow_start initialState flowA), None)
  /\ grabbingItems (grabFlow_settle (fst (grabFlow_start initialState flowA)) flowA
                      GrabRejected)
     = grabbingItems initialState.
Proof.
  apply (grab_in_flight_round_trip initialState flowA GrabRejected).
  vm_compute. reflexivity.
Defined.

(** X18. A download of an item not yet being downloaded fetches its file and
    marks it as being downloaded; while it is, a second download of the same
    item fetches nothing; and when the download ends, either way, the set of
    items being downloaded is as before. *)
Theorem download_in_flight_round_trip (st : ShowcaseState)
    (downloading : gset string) (item : StoreItem) (o : DownloadOutcome) :
  has downloading (id item) = false ->
  let downloading1 := fst (handleDownload_start downloading item) in
  snd (handleDownload_start downloading item) = Some (filePath item)
  /\ handleDownload_start downloading1 item = (downloading1, None)
  /\ snd (handleDownload_settle st downloading1 item o) = downloading.
Proof.
  intros Hfree. unfold handleDownload_start. rewrite Hfree. simpl.
  assert (Hnot : id item ∉ downloading).
  { unfold has in Hfree. apply bool_decide_eq_false in Hfree. exact Hfree. }
  pose proof (has_after_add downloading (id item)) as Hin.
  split; [reflexivity|]. split.
  - rewrite Hin. reflexivity.
  - apply add_then_remove, Hnot.
Qed.

Lemma download_in_flight_witness :
  snd (handleDownload_start ∅ flowA) = Some (filePath flowA)
  /\ handleDownload_start (fst (handleDownload_start ∅ flowA)) flowA
     = (fst (handleDownload_start ∅ flowA), None)
  /\ snd (handleDownload_settle initialState (fst (handleDownload_start ∅ flowA)) flowA
            DownloadSaved)
     = ∅.
Proof.
  apply (download_in_flight_round_trip initialState ∅ flowA DownloadSaved).
  vm_compute. reflexivity.
Defined.

(** ** Preview: the placeholder graph *)

(** X19. The placeholder graph is well formed whatever the item: its node ids
    are pairwise different, every edge starts and ends at one of its nodes,
    and one node is labelled with the item's name. For a component it is one
    node without edges; for a flow it is three nodes chained by two edges,
    "start-1" to "process-1" to "output-1". *)
Theorem placeholder_graph_is_well_formed (item : StoreItem) :
  let g := createPlaceholderFlow item in
  let ids := List.map (field "id") (elements (nodes g)) in
  List.NoDup ids
  /\ (forall e, In e (elements (edges g)) ->
                In (field "source" e) ids /\ In (field "target" e) ids)
  /\ (exists node, In node (elements (nodes g))
                   /\ field "label" (field "data" node) = JStr (name item))
  /\ match type item with
     | COMPONENT => length (elements (nodes g)) = 1%nat /\ elements (edges g) = []
     | FLOW =>
         length (elements (nodes g)) = 3%nat
         /\ List.map (fun e => (field "source" e, field "target" e))
                     (elements (edges g))
            = [(JStr "start-1", JStr "process-1"); (JStr "process-1", JStr "output-1")]
     end.
Proof.
  unfold createPlaceholderFlow. destruct (type item); simpl.
  - split; [repeat constructor; simpl; intuition discriminate|].
    split; [intros e [<-|[<-|[]]]; simpl; tauto|].
    split; [|split; reflexivity].
    eexists. split; [right; left; reflexivity | reflexivity].
  - split; [repeat constructor; simpl; intuition discriminate|].
    split; [intros e []|].
    split; [|split; reflexivity].
    eexists. split; [left; reflexivity | reflexivity].
Qed.

Lemma placeholder_graph_witness :
  In (field "source" (JObj [("id", JStr "e1-2"); ("source", JStr "start-1");
                            ("target", JStr "process-1"); ("type", JStr "smoothstep")]))
     (List.map (field "id") (elements (nodes (createPlaceholderFlow flowA))))
  /\ In (field "target" (JObj [("id", JStr "e1-2"); ("source", JStr "start-1");
                               ("target", JStr "process-1"); ("type", JStr "smoothstep")]))
        (List.map (field "id") (elements (nodes (createPlaceholderFlow flowA)))).
Proof.
  apply (proj1 (proj2 (placeholder_graph_is_well_formed flowA))).
  simpl. left. reflexivity.
Defined.

(** ** Favorites: the request *)

(** X20. [toggleFavorite] sends a request exactly when the catalog holds an
    item with the given id; the request then carries that id and the type,
    name and description of a catalog item with that id. *)
Theorem toggle_request_names_catalog_item (st : ShowcaseState) (itemId : string) :
  (snd (toggleFavorite_start st itemId) = None
   <-> forall item, In item (allItems st) -> id item <> itemId)
  /\ forall req, snd (toggleFavorite_start st itemId) = Some req ->
       item_id req = itemId
       /\ exists item, In item (allItems st) /\ id item = itemId
                       /\ item_type req = type item
                       /\ item_name req = name item
                       /\ item_description req = Some (description item).
Proof.
  unfold toggleFavorite_start.
  destruct (find (fun i => String.eqb (id i) itemId) (allItems st)) as [item|] eqn:Hfind;
    simpl.
  - apply find_some in Hfind. destruct Hfind as [Hin Heq].
    apply String.eqb_eq in Heq. split.
    + split; [discriminate|]. intros H. exfalso. exact (H item Hin Heq).
    + intros req H. inversion H; subst; clear H. simpl.
      split; [reflexivity|]. exists item. auto.
  - split; [|discriminate]. split; [|reflexivity].
    intros _ item Hin Heq.
    pose proof (find_none _ _ Hfind item Hin) as Hno. simpl in Hno.
    apply String.eqb_neq in Hno. contradiction.
Qed.

Lemma toggle_request_witness :
  id flowA <> "zz".
Proof.
  apply (proj1 (proj1 (toggle_request_names_catalog_item noFavorites "zz"))).
  - vm_compute. reflexivity.
  - simpl. left. reflexivity.
Defined.

(** ** Preview: the error message *)

Lemma get_property_field (d : JsValue) (k : string) :
  d <> JNull -> d <> JUndefined -> get_property d k = Normal (field k d).
Proof. destruct d; simpl; congruence. Qed.

Lemma truthy_not_nullish (d : JsValue) :
  truthy d = true -> d <> JNull /\ d <> JUndefined.
Proof. destruct d; simpl; intros H; split; congruence. Qed.

(** With a body other than [null], the [try] block of [loadFlowData] returns. *)
Lemma tryLoad_returns (item : StoreItem) (data : JsValue) :
  data <> JNull -> data <> JUndefined ->
  exists fd, tryLoad item (Response true (Some data)) = Normal fd.
Proof.
  intros Hn Hu. unfold tryLoad. rewrite (get_property_field data "data" Hn Hu). simpl.
  destruct (truthy (field "data" data)) eqn:Td; [|eauto].
  destruct (truthy_not_nullish _ Td) as [Hdn Hdu].
  rewrite !(get_property_field (field "data" data) _ Hdn Hdu). simpl.
  destruct (truthy (field "nodes" (field "data" data))); [|eauto].
  destruct (truthy (field "edges" (field "data" data))); eauto.
Qed.

(** X21. [loadFlowData] always ends with [loading] off and a graph to show.
    It sets the error message exactly when the fetch is rejected, the body of
    an OK response does not parse, or the body is [null]; the graph shown is
    then the placeholder. A response that is not OK gives the placeholder
    without an error message. *)
Theorem preview_error_exactly_on_throw (item : StoreItem) (r : FetchResult) :
  loading (loadFlowData item r) = false
  /\ (exists fd, flowData (loadFlowData item r) = Some fd)
  /\ (error (loadFlowData item r) = Some "Failed to load flow preview"
      <-> r = FetchRejected \/ r = Response true None
          \/ r = Response true (Some JNull) \/ r = Response true (Some JUndefined))
  /\ (error (loadFlowData item r) <> None ->
      flowData (loadFlowData item r) = Some (createPlaceholderFlow item))
  /\ (forall body, r = Response false body ->
        loadFlowData item r
        = {| flowData := Some (createPlaceholderFlow item); loading := false;
             error := None |}).
Proof.
  unfold loadFlowData. split; [destruct (tryLoad item r); reflexivity|].
  split; [destruct (tryLoad item r); simpl; eauto|].
  split; [|split].
  - destruct r as [|[|] [data|]].
    + simpl. split; auto.
    + destruct data as [| |b|z|s|es|props].
      1: { simpl. split; [intros _; right; right; right; reflexivity | reflexivity]. }
      1: { simpl. split; [intros _; right; right; left; reflexivity | reflexivity]. }
      all: match goal with
           | |- context [tryLoad ?i (Response true (Some ?d))] =>
               destruct (tryLoad_returns i d) as [fd ->]; [discriminate .. |]
           end;
        simpl; (split; [discriminate|]);
        intros [H|[H|[H|H]]]; discriminate H.
    + simpl. split; auto.
    + simpl. split; [discriminate|]. intros [H|[H|[H|H]]]; discriminate H.
    + simpl. split; [discriminate|]. intros [H|[H|[H|H]]]; discriminate H.
  - destruct (tryLoad item r); simpl; [congruence | reflexivity].
  - intros body ->. destruct body; reflexivity.
Qed.

Lemma preview_error_witness :
  loadFlowData flowA (Response false None)
  = {| flowData := Some (createPlaceholderFlow flowA); loading := false;
       error := None |}.
Proof.
  apply (proj2 (proj2 (proj2 (proj2
           (preview_error_exactly_on_throw flowA (Response false None))))) None).
  reflexivity.
Defined.

(** ** Download: names that are left alone *)

(** X22. [sanitizeFilename] leaves a name unchanged exactly when the name has
    none of the characters it removes or replaces, no three white-space
    characters in a row, and no white space at either end. *)
Theorem sanitizeFilename_fixed_iff (name : string) :
  sanitizeFilename name = name
  <-> Forall (fun c => forbidden_char c = false) (list_ascii_of_string name)
      /\ no_space_triple (list_ascii_of_string name) = true
      /\ first_is_space (list_ascii_of_string name) = false
      /\ last_is_space (list_ascii_of_string name) = false.
Proof.
  split.
  - intros H.
    pose proof (sanitize_chars_clean (list_ascii_of_string name)) as Hclean.
    unfold sanitizeFilename in H. apply (f_equal list_ascii_of_string) in H.
    rewrite list_ascii_of_string_of_list_ascii in H. rewrite H in Hclean. exact Hclean.
  - intros (Hc & Ht & Hf & Hl). unfold sanitizeFilename.
    rewrite sanitize_chars_fixed by assumption.
    apply string_of_list_ascii_of_string.
Qed.
